(** * Onlybees ticket booking backend: allocation protocol

    A shallow embedding of the booking service (services/bookingService.js),
    the two controllers (controllers/bookingController.js,
    controllers/eventController.js) and the Mongoose models
    (models/Event.js, models/Booking.js), with the properties of the
    allocation protocol stated and settled on it.

    Conventions of the embedding:
    - a JavaScript [Number] that the service uses as a count is an integer
      held in a double: a [Z], with the rounding of doubles written out
      where the database adds ([to_double]); fractions and texts in the
      place of a number are not modelled;
    - an ObjectId is a natural number; the driver's generator of fresh
      ObjectIds is a counter kept next to the collections.  The ids in the
      body of a request are taken as texts that Mongoose can cast to
      ObjectIds, and the statements about POST /book are about such
      requests; a text that is no ObjectId is modelled where it comes as a
      route parameter ([IdParam]);
    - a MongoDB collection is the list of its documents in insertion order;
    - an [async] function is a computation in the monad [M]: it reads and
      writes the collections, may throw, and records every round trip to
      the database. *)

From Stdlib Require Import ZArith List String Bool Lia Permutation Sorted.
Import ListNotations.
Open Scope Z_scope.

(* ------------------------------------------------------------------ *)
(** ** Documents (models/Event.js, models/Booking.js)                   *)
(* ------------------------------------------------------------------ *)

Definition ObjectId := nat.
Bind Scope nat_scope with ObjectId.

(** sectionSchema: name, price, capacity (min 1), remaining; Mongoose adds
    [_id] to every sub-document. *)
Record Section := mkSection {
  sec_id    : ObjectId;
  sec_name  : string;
  price     : Z;
  capacity  : Z;
  remaining : Z
}.

(** eventSchema: name and the embedded array of sections.  The document
    also has [createdAt], [updatedAt] (set by every update) and [__v];
    they are read nowhere in the service and are left out, so no statement
    below is about a whole event document, only about the fields kept
    here. *)
Record Event := mkEvent {
  ev_id    : ObjectId;
  ev_name  : string;
  sections : list Section
}.

(** bookingSchema: eventId, sectionId, qty (min 1), and [createdAt] from
    [timestamps: true]. *)
Record Booking := mkBooking {
  bk_id     : ObjectId;
  eventId   : ObjectId;
  sectionId : ObjectId;
  qty       : Z;
  createdAt : Z
}.

(** The two collections and the ObjectId generator. *)
Record World := mkWorld {
  events   : list Event;
  bookings : list Booking;
  next_oid : ObjectId
}.

Definition empty_world : World := mkWorld [] [] 0%nat.

(** What the surroundings decide for one request: the clock, and whether
    the database answers the conditional update, the insert and the
    query. *)
Record Env := mkEnv {
  now       : Z;
  update_up : bool;
  save_up   : bool;
  find_up   : bool
}.

(* ------------------------------------------------------------------ *)
(** ** Errors, round trips and the monad of [async] functions           *)
(* ------------------------------------------------------------------ *)

Inductive Error :=
| JsError (msg : string)            (* new Error(msg) *)
| ValidationError (model : string)  (* Mongoose schema validation *)
| MongoError.                       (* the database did not answer *)

(** [error.message].  The text of [new Error(msg)] is [msg].  The texts of
    Mongoose's validation errors and of the driver's errors depend on
    values that are not kept here; the two texts below stand in for them,
    and no statement says what they are: all that is used is that they are
    not one of the two messages createBooking looks for. *)
Definition message (e : Error) : string :=
  match e with
  | JsError m => m
  | ValidationError model => (model ++ " validation failed")%string
  | MongoError => "MongoNetworkError"%string
  end.

Inductive DbCall :=
| CallFindOneAndUpdate (e s : ObjectId) (q : Z)
| CallSaveBooking (b : Booking)
| CallSaveEvent (ev : Event)
| CallFindBookings.

Inductive Outcome (A : Type) :=
| Returned (a : A)
| Thrown (e : Error).
Arguments Returned {A} a.
Arguments Thrown {A} e.

Definition M (A : Type) : Type := World -> Outcome A * World * list DbCall.

Definition ret {A} (a : A) : M A := fun w => (Returned a, w, []).

Definition throw {A} (e : Error) : M A := fun w => (Thrown e, w, []).

Definition bind {A B} (m : M A) (k : A -> M B) : M B := fun w =>
  match m w with
  | (Returned a, w1, l1) =>
      let '(r, w2, l2) := k a w1 in (r, w2, l1 ++ l2)
  | (Thrown e, w1, l1) => (Thrown e, w1, l1)
  end.

Definition try_catch {A} (m : M A) (handler : Error -> M A) : M A := fun w =>
  match m w with
  | (Returned a, w1, l1) => (Returned a, w1, l1)
  | (Thrown e, w1, l1) =>
      let '(r, w2, l2) := handler e w1 in (r, w2, l1 ++ l2)
  end.

Notation "x <- m ;; k" := (bind m (fun x => k))
  (at level 61, m at next level, right associativity).

(** [new mongoose.Types.ObjectId()]. *)
Definition fresh_oid : M ObjectId := fun w =>
  (Returned (next_oid w),
   mkWorld (events w) (bookings w) (S (next_oid w)), []).

(* ------------------------------------------------------------------ *)
(** ** Event.findOneAndUpdate with the filter and update of bookTicket  *)
(* ------------------------------------------------------------------ *)

(** ['sections._id': sectionId]: some element of the array has this id. *)
Definition has_section (s : ObjectId) (ev : Event) : bool :=
  existsb (fun sec => Nat.eqb (sec_id sec) s) (sections ev).

(** ['sections.remaining': { $gte: qty }]: some element of the array has
    enough remaining.  The two array conditions are separate paths of the
    filter (there is no [$elemMatch]), so each is checked on its own. *)
Definition has_remaining (q : Z) (ev : Event) : bool :=
  existsb (fun sec => q <=? remaining sec) (sections ev).

Definition filter_matches (e s : ObjectId) (q : Z) (ev : Event) : bool :=
  Nat.eqb (ev_id ev) e && has_section s ev && has_remaining q ev.

(** The element the positional operator [$] of ['sections.$.remaining']
    stands for.  The operator takes the position of the array element that
    matched the filter, and this filter has two conditions on the array
    that different elements can satisfy.  The server keeps the position
    recorded by the array condition it evaluated last, here the one on
    [remaining] ([ByRemaining]); the other reading takes the element named
    by [sectionId] ([BySectionId]).  The service is parameterised by the
    reading and every statement below is made for both. *)
Inductive Positional := ByRemaining | BySectionId.

Definition positional_match (pos : Positional) (s : ObjectId) (q : Z)
    (sec : Section) : bool :=
  match pos with
  | ByRemaining => q <=? remaining sec
  | BySectionId => Nat.eqb (sec_id sec) s
  end.

(** [Number.MAX_SAFE_INTEGER], 2^53 - 1. *)
Definition max_safe_integer : Z := 9007199254740991.

(** The double nearest to the integer [z]: [z] itself up to 2^53 in
    magnitude; beyond, the nearest multiple of the distance between
    neighbouring doubles, and of two equally near the one with the even
    significand.  (Doubles are taken as finite.) *)
Definition to_double (z : Z) : Z :=
  let a := Z.abs z in
  if a <=? 2 ^ 53 then z
  else
    let u := 2 ^ (Z.log2 a - 52) in
    let m := a / u in
    let r := a mod u in
    let m' := if 2 * r <? u then m
              else if u <? 2 * r then m + 1
              else if Z.even m then m else m + 1 in
    Z.sgn z * (m' * u).

(** [$inc] on [remaining]: the sum is formed in the arithmetic of the
    stored number.  Up to 2^53 every representation the server uses
    (32-bit, 64-bit, double) gives the exact sum; beyond, the model
    follows the double, which is what a counter created from a JSON
    number of that size is. *)
Definition inc_remaining (delta : Z) (sec : Section) : Section :=
  mkSection (sec_id sec) (sec_name sec) (price sec) (capacity sec)
            (to_double (remaining sec + delta)).

(** [$inc] on the first element the positional operator selects. *)
Fixpoint inc_positional (p : Section -> bool) (delta : Z)
    (secs : list Section) : list Section :=
  match secs with
  | [] => []
  | sec :: rest =>
      if p sec then inc_remaining delta sec :: rest
      else sec :: inc_positional p delta rest
  end.

Definition apply_update (pos : Positional) (s : ObjectId) (q : Z)
    (ev : Event) : Event :=
  mkEvent (ev_id ev) (ev_name ev)
          (inc_positional (positional_match pos s q) (- q) (sections ev)).

(** The first document that matches the filter is updated in place; the
    updated document is returned ([new: true]), or [None] (JavaScript
    [null]) when no document matches. *)
Fixpoint find_one_and_update (pos : Positional) (e s : ObjectId) (q : Z)
    (evs : list Event) : option (Event * list Event) :=
  match evs with
  | [] => None
  | ev :: rest =>
      if filter_matches e s q ev
      then let ev' := apply_update pos s q ev in Some (ev', ev' :: rest)
      else match find_one_and_update pos e s q rest with
           | Some (ev', rest') => Some (ev', ev :: rest')
           | None => None
           end
  end.

Definition Event_findOneAndUpdate (pos : Positional) (env : Env)
    (e s : ObjectId) (q : Z) : M (option Event) := fun w =>
  if update_up env then
    match find_one_and_update pos e s q (events w) with
    | Some (ev', evs') =>
        (Returned (Some ev'), mkWorld evs' (bookings w) (next_oid w),
         [CallFindOneAndUpdate e s q])
    | None => (Returned None, w, [CallFindOneAndUpdate e s q])
    end
  else (Thrown MongoError, w, [CallFindOneAndUpdate e s q]).

(* ------------------------------------------------------------------ *)
(** ** Booking: constructor and save (models/Booking.js)                *)
(* ------------------------------------------------------------------ *)

(** [new Booking({ eventId, sectionId, qty })]: the document gets its
    [_id] at construction; [createdAt] is set by [save]. *)
Definition new_Booking (e s : ObjectId) (q : Z) : M Booking :=
  id <- fresh_oid ;;
  ret (mkBooking id e s q 0).

(** [booking.save()]: schema validation ([qty] has [min: 1]) runs before
    the insert is sent; the insert stamps [createdAt]. *)
Definition Booking_save (env : Env) (b : Booking) : M Booking := fun w =>
  if qty b <? 1 then (Thrown (ValidationError "Booking"), w, [])
  else
    let b' := mkBooking (bk_id b) (eventId b) (sectionId b) (qty b) (now env) in
    if save_up env then
      (Returned b', mkWorld (events w) (bookings w ++ [b']) (next_oid w),
       [CallSaveBooking b'])
    else (Thrown MongoError, w, [CallSaveBooking b']).

(* ------------------------------------------------------------------ *)
(** ** services/bookingService.js                                       *)
(* ------------------------------------------------------------------ *)

Definition not_enough_seats : string := "Not enough seats available".

Definition bookTicket (pos : Positional) (env : Env)
    (e s : ObjectId) (q : Z) : M Booking :=
  try_catch
    (updatedEvent <- Event_findOneAndUpdate pos env e s q ;;
     match updatedEvent with
     | None => throw (JsError not_enough_seats)
     | Some _ =>
         booking <- new_Booking e s q ;;
         saved <- Booking_save env booking ;;
         ret saved
     end)
    (fun error => throw error).

(** Sort of [.sort({ createdAt: -1 })]: newest first.  Among bookings of
    equal [createdAt] the server promises no order; the sort below keeps
    them as stored, and the statements use only that the result holds the
    same bookings, ordered by [createdAt]. *)
Fixpoint insert_newest_first (b : Booking) (l : list Booking) : list Booking :=
  match l with
  | [] => [b]
  | x :: rest =>
      if createdAt x <=? createdAt b then b :: x :: rest
      else x :: insert_newest_first b rest
  end.

Definition sort_newest_first (l : list Booking) : list Booking :=
  fold_right insert_newest_first [] l.

(** A booking whose [eventId] path was populated with the event's [name]
    ([null] when the event is not in the collection). *)
Record PopulatedBooking := mkPopulated {
  pb_doc   : Booking;
  pb_event : option (ObjectId * string)
}.

Definition populate_eventId (evs : list Event) (b : Booking) : PopulatedBooking :=
  mkPopulated b
    (match find (fun ev => Nat.eqb (ev_id ev) (eventId b)) evs with
     | Some ev => Some (ev_id ev, ev_name ev)
     | None => None
     end).

Definition getAllBookings (env : Env) : M (list PopulatedBooking) := fun w =>
  if find_up env then
    (Returned (map (populate_eventId (events w))
                   (sort_newest_first (bookings w))),
     w, [CallFindBookings])
  else (Thrown MongoError, w, [CallFindBookings]).

(* ------------------------------------------------------------------ *)
(** ** HTTP responses                                                   *)
(* ------------------------------------------------------------------ *)

Inductive Json :=
| ErrorJson (error : string)
| BookingJson (msg : string) (booking : Booking)
| EventJson (ev : Event)
| BookingsJson (l : list PopulatedBooking).

Record Response := mkResponse {
  status : Z;
  body   : Json
}.

(* ------------------------------------------------------------------ *)
(** ** controllers/bookingController.js                                 *)
(* ------------------------------------------------------------------ *)

(** [req.body] of POST /book; [None] is a field that is not there. *)
Record BookingBody := mkBookingBody {
  req_eventId   : option ObjectId;
  req_sectionId : option ObjectId;
  req_qty       : option Z
}.

(** [!x] for an id and for a number. *)
Definition not_id (o : option ObjectId) : bool :=
  match o with Some _ => false | None => true end.

Definition not_num (o : option Z) : bool :=
  match o with Some n => n =? 0 | None => true end.

Definition missing_fields : string :=
  "Missing required fields: eventId, sectionId, qty".
Definition quantity_at_least_one : string := "Quantity must be at least 1".
Definition section_not_found : string := "Event or Section not found".
Definition internal_server_error : string := "Internal Server Error".
Definition booking_successful : string := "Booking successful".

Definition createBooking (pos : Positional) (env : Env) (b : BookingBody)
    : M Response :=
  try_catch
    (if not_id (req_eventId b) || not_id (req_sectionId b) || not_num (req_qty b)
     then ret (mkResponse 400 (ErrorJson missing_fields))
     else
       match req_eventId b, req_sectionId b, req_qty b with
       | Some e, Some s, Some q =>
           if q <? 1
           then ret (mkResponse 400 (ErrorJson quantity_at_least_one))
           else
             booking <- bookTicket pos env e s q ;;
             ret (mkResponse 201 (BookingJson booking_successful booking))
       | _, _, _ => ret (mkResponse 400 (ErrorJson missing_fields))
       end)
    (fun error =>
       if String.eqb (message error) not_enough_seats
          || String.eqb (message error) section_not_found
       then ret (mkResponse 400 (ErrorJson (message error)))
       else ret (mkResponse 500 (ErrorJson internal_server_error))).

Definition listBookings (env : Env) : M Response :=
  try_catch
    (bs <- getAllBookings env ;;
     ret (mkResponse 200 (BookingsJson bs)))
    (fun error => ret (mkResponse 500 (ErrorJson (message error)))).

(* ------------------------------------------------------------------ *)
(** ** controllers/eventController.js                                   *)
(* ------------------------------------------------------------------ *)

(** One element of [req.body.sections]: the paths of sectionSchema,
    [_id] among them. *)
Record SectionInput := mkSectionInput {
  in_name      : option string;
  in_price     : option Z;
  in_capacity  : option Z;
  in_remaining : option Z;
  in_id        : option ObjectId
}.

Record EventBody := mkEventBody {
  req_name     : option string;
  req_sections : option (list SectionInput)
}.

Definition not_string (o : option string) : bool :=
  match o with Some n => String.eqb n "" | None => true end.

Definition name_and_section_required : string :=
  "Name and at least one section are required".

(** [{ ...section, remaining: section.remaining !== undefined
        ? section.remaining : section.capacity }]. *)
Definition with_remaining (section : SectionInput) : SectionInput :=
  mkSectionInput (in_name section) (in_price section) (in_capacity section)
    (match in_remaining section with
     | Some r => Some r
     | None => in_capacity section
     end)
    (in_id section).

(** The [_id] of a new sub-document: the one the request brought, or a
    fresh one. *)
Definition section_oid (fresh : ObjectId) (i : SectionInput) : ObjectId :=
  match in_id i with
  | Some id => id
  | None => fresh
  end.

(** [new Event({ name, sections })]: the document gets an [_id], each
    sub-document keeps the [_id] of the request or gets one; the other
    fields are still as the request gave them.  The generator is moved on
    for every sub-document, with or without an [_id] of its own: all that
    matters of the ids it hands out later is that they are new. *)
Fixpoint new_sections (ins : list SectionInput)
    : M (list (ObjectId * SectionInput)) :=
  match ins with
  | [] => ret []
  | i :: rest =>
      id <- fresh_oid ;;
      ds <- new_sections rest ;;
      ret ((section_oid id i, i) :: ds)
  end.

Definition new_Event (name : string) (ins : list SectionInput)
    : M (ObjectId * string * list (ObjectId * SectionInput)) :=
  id <- fresh_oid ;;
  ds <- new_sections ins ;;
  ret (id, name, ds).

(** sectionSchema: every path is required, [capacity] has [min: 1]. *)
Definition validate_section (d : ObjectId * SectionInput) : option Section :=
  match in_name (snd d), in_price (snd d),
        in_capacity (snd d), in_remaining (snd d) with
  | Some n, Some p, Some c, Some r =>
      if String.eqb n "" || (c <? 1) then None
      else Some (mkSection (fst d) n p c r)
  | _, _, _, _ => None
  end.

Fixpoint validate_sections (ds : list (ObjectId * SectionInput))
    : option (list Section) :=
  match ds with
  | [] => Some []
  | d :: rest =>
      match validate_section d, validate_sections rest with
      | Some sec, Some secs => Some (sec :: secs)
      | _, _ => None
      end
  end.

(** [event.save()]: validation, then the insert. *)
Definition Event_save (env : Env)
    (draft : ObjectId * string * list (ObjectId * SectionInput)) : M Event :=
  fun w =>
    let '(id, name, ds) := draft in
    if String.eqb name "" then (Thrown (ValidationError "Event"), w, [])
    else
      match validate_sections ds with
      | None => (Thrown (ValidationError "Event"), w, [])
      | Some secs =>
          let ev := mkEvent id name secs in
          if save_up env then
            (Returned ev, mkWorld (events w ++ [ev]) (bookings w) (next_oid w),
             [CallSaveEvent ev])
          else (Thrown MongoError, w, [CallSaveEvent ev])
      end.

Definition createEvent (env : Env) (b : EventBody) : M Response :=
  try_catch
    (match req_name b, req_sections b with
     | Some name, Some sections =>
         if not_string (req_name b) || (List.length sections =? 0)%nat
         then ret (mkResponse 400 (ErrorJson name_and_section_required))
         else
           let sectionsWithRemaining := map with_remaining sections in
           event <- new_Event name sectionsWithRemaining ;;
           savedEvent <- Event_save env event ;;
           ret (mkResponse 201 (EventJson savedEvent))
     | _, _ => ret (mkResponse 400 (ErrorJson name_and_section_required))
     end)
    (fun error => ret (mkResponse 500 (ErrorJson (message error)))).

(* ------------------------------------------------------------------ *)
(** ** Requests served one after the other                              *)
(* ------------------------------------------------------------------ *)

Inductive Request :=
| PostEventsCreate (env : Env) (b : EventBody)
| PostBook (env : Env) (b : BookingBody)
| GetBookings (env : Env).

Definition handle (pos : Positional) (r : Request) : M Response :=
  match r with
  | PostEventsCreate env b => createEvent env b
  | PostBook env b => createBooking pos env b
  | GetBookings env => listBookings env
  end.

Definition world_of {A} (x : Outcome A * World * list DbCall) : World :=
  snd (fst x).
Definition outcome_of {A} (x : Outcome A * World * list DbCall) : Outcome A :=
  fst (fst x).
Definition calls_of {A} (x : Outcome A * World * list DbCall) : list DbCall :=
  snd x.

Fixpoint serve (pos : Positional) (rs : list Request) (w : World) : World :=
  match rs with
  | [] => w
  | r :: rest => serve pos rest (world_of (handle pos r w))
  end.

Definition reachable (pos : Positional) (w : World) : Prop :=
  exists rs, w = serve pos rs empty_world.

(* ------------------------------------------------------------------ *)
(** ** Observations used by the statements                              *)
(* ------------------------------------------------------------------ *)

(** [Event.findById]. *)
Definition lookup_event (e : ObjectId) (evs : list Event) : option Event :=
  find (fun ev => Nat.eqb (ev_id ev) e) evs.

Definition lookup_section (s : ObjectId) (secs : list Section) : option Section :=
  find (fun sec => Nat.eqb (sec_id sec) s) secs.

(** The remaining counter of section [s] of event [e], if both exist. *)
Definition remaining_of (w : World) (e s : ObjectId) : option Z :=
  match lookup_event e (events w) with
  | Some ev => option_map remaining (lookup_section s (sections ev))
  | None => None
  end.

(** Sum of [qty] over the stored bookings whose [sectionId] is [s],
    whatever their event. *)
Fixpoint booked (s : ObjectId) (bs : list Booking) : Z :=
  match bs with
  | [] => 0
  | b :: rest =>
      (if Nat.eqb (sectionId b) s then qty b else 0) + booked s rest
  end.

(** One call of the allocation primitive. *)
Record Call := mkCall {
  call_env     : Env;
  call_event   : ObjectId;
  call_section : ObjectId;
  call_qty     : Z
}.

Definition do_call (pos : Positional) (c : Call) : M Booking :=
  bookTicket pos (call_env c) (call_event c) (call_section c) (call_qty c).

(** Calls made one after the other, with the outcome of each. *)
Fixpoint run_calls (pos : Positional) (cs : list Call) (w : World)
    : list (Outcome Booking) * World :=
  match cs with
  | [] => ([], w)
  | c :: rest =>
      let r := do_call pos c w in
      let '(os, w') := run_calls pos rest (world_of r) in
      (outcome_of r :: os, w')
  end.


(** Number of calls that returned a booking. *)
Definition successes (os : list (Outcome Booking)) : nat :=
  List.length (filter (fun o => match o with
                                | Returned _ => true
                                | Thrown _ => false
                                end) os).

(** Number of attempts to append a booking among the round trips. *)
Fixpoint save_attempts (log : list DbCall) : nat :=
  match log with
  | [] => 0%nat
  | CallSaveBooking _ :: rest => S (save_attempts rest)
  | _ :: rest => save_attempts rest
  end.



(** The sub-documents of a new event: the ids the generator would give,
    [n], [n+1], ..., each overridden by the [_id] of the request. *)
Fixpoint drafts (n : nat) (ins : list SectionInput)
    : list (ObjectId * SectionInput) :=
  match ins with
  | [] => []
  | i :: rest => (section_oid n i, i) :: drafts (S n) rest
  end.

(** Ids handed out so far: the ids of events, which only the generator
    gives, are distinct and the generator is ahead of all of them.  (The
    ids of sections can come from requests and need not be distinct.) *)
Record ids_fresh (w : World) : Prop := mkIdsFresh {
  event_ids_nodup   : NoDup (map ev_id (events w));
  event_ids_below   : Forall (fun i => (i < next_oid w)%nat) (map ev_id (events w))
}.

(** Sum of [qty] over the stored bookings that reference section [s] of
    event [e], by both ids. *)
Fixpoint booked_in (e s : ObjectId) (bs : list Booking) : Z :=
  match bs with
  | [] => 0
  | b :: rest =>
      (if Nat.eqb (eventId b) e && Nat.eqb (sectionId b) s
       then qty b else 0) + booked_in e s rest
  end.






(** How a stored section relates to the element of the request it was made
    from. *)
Definition stored_from (i : SectionInput) (sec : Section) : Prop :=
  in_capacity i = Some (capacity sec) /\
  1 <= capacity sec /\
  remaining sec = match in_remaining i with
                  | Some r => r
                  | None => capacity sec
                  end.

(** An element of [req.body.sections] that passes the schema whatever its
    [remaining] field holds: a name, a price and a capacity of at least 1. *)
Definition well_formed_input (i : SectionInput) : bool :=
  match in_name i, in_price i, in_capacity i with
  | Some n, Some _, Some c => negb (String.eqb n "") && (1 <=? c)
  | _, _, _ => false
  end.

(** Newest first. *)
Definition newer_or_equal (a b : Booking) : Prop := createdAt b <= createdAt a.

(** The [catch] branch of createBooking, as a function of the error. *)
Definition booking_error_response (err : Error) : Response :=
  if String.eqb (message err) not_enough_seats
     || String.eqb (message err) section_not_found
  then mkResponse 400 (ErrorJson (message err))
  else mkResponse 500 (ErrorJson internal_server_error).

(* ------------------------------------------------------------------ *)
(** ** Concrete requests used in the scenarios                          *)
(* ------------------------------------------------------------------ *)

(** Everything answers; the clock reads [t]. *)
Definition env_up (t : Z) : Env := mkEnv t true true true.


Definition section_input (name : string) (p c : Z) (r : option Z)
    : SectionInput :=
  mkSectionInput (Some name) (Some p) (Some c) r None.

(** One event with the single section VIP of capacity [c] that brings
    its own [_id]. *)
Definition one_section_with_id (c : Z) (id : ObjectId) : EventBody :=
  mkEventBody (Some "Concert"%string)
    (Some [mkSectionInput (Some "VIP"%string) (Some 100) (Some c) None
             (Some id)]).

(** One event, sections VIP (capacity 1) and General (capacity 5). *)
Definition two_sections : EventBody :=
  mkEventBody (Some "Concert"%string)
    (Some [section_input "VIP" 100 1 None;
           section_input "General" 50 5 None]).

(** One event with the single section VIP of capacity [c]; [r] is the
    [remaining] field of the request, if it has one. *)
Definition one_section (c : Z) (r : option Z) : EventBody :=
  mkEventBody (Some "Concert"%string) (Some [section_input "VIP" 100 c r]).

(** The world after POST /events/create with [b] on the empty database:
    the event gets id 0, its sections ids 1, 2, ... *)
Definition created (b : EventBody) : World :=
  world_of (createEvent (env_up 0) b empty_world).

(** One seat of section 1 of event 0. *)
Definition one_seat (t : Z) : Call := mkCall (env_up t) 0 1 1.

(* ------------------------------------------------------------------ *)
(** ** controllers/eventController.js: getEvent                         *)
(* ------------------------------------------------------------------ *)

(** The round trip of a read of the events collection. *)
Inductive EventQuery :=
| CallFindById (id : ObjectId).

(** [req.params.id]: a text that Mongoose casts to an ObjectId, or a text
    that it cannot cast; [complaint] is the message of the CastError that
    Mongoose raises for it. *)
Inductive IdParam :=
| WellFormedId (id : ObjectId)
| IllFormedId (complaint : string).

(** [Event.findById(id)]: a read, the collections are not written.  The
    cast of [id] comes first and fails without a round trip. *)
Definition Event_findById (env : Env) (id : IdParam) (w : World)
    : Outcome (option Event) * list EventQuery :=
  match id with
  | IllFormedId complaint => (Thrown (JsError complaint), [])
  | WellFormedId i =>
      if find_up env
      then (Returned (lookup_event i (events w)), [CallFindById i])
      else (Thrown MongoError, [CallFindById i])
  end.

Definition event_not_found : string := "Event not found".

Definition getEvent (env : Env) (id : IdParam) (w : World)
    : Response * list EventQuery :=
  match Event_findById env id w with
  | (Returned None, l) => (mkResponse 404 (ErrorJson event_not_found), l)
  | (Returned (Some event), l) => (mkResponse 200 (EventJson event), l)
  | (Thrown error, l) => (mkResponse 500 (ErrorJson (message error)), l)
  end.

(* ------------------------------------------------------------------ *)
(** ** Observations on whole events and on the stored bookings          *)
(* ------------------------------------------------------------------ *)

(** A section as it was and as it is: the same id, name, price and
    capacity.  Nothing is said of [remaining]. *)
Definition same_section_but_remaining (sec sec' : Section) : Prop :=
  sec_id sec' = sec_id sec /\ sec_name sec' = sec_name sec /\
  price sec' = price sec /\ capacity sec' = capacity sec.

(** An event as it was and as it is: the same id and name, and the same
    sections in the same order, up to their [remaining]. *)
Definition same_event_but_remaining (ev ev' : Event) : Prop :=
  ev_id ev' = ev_id ev /\ ev_name ev' = ev_name ev /\
  Forall2 same_section_but_remaining (sections ev) (sections ev').




(** A stored booking that makes sense in the events collection [evs]: at
    least one seat, of a section of an event that is there. *)
Definition booking_sound (evs : list Event) (b : Booking) : Prop :=
  1 <= qty b /\
  exists ev, In ev evs /\ ev_id ev = eventId b /\
             In (sectionId b) (map sec_id (sections ev)).

(* ================================================================== *)
(** * Properties                                                        *)
(* ================================================================== *)

(* ------------------------------------------------------------------ *)
(** ** Sums of doubles                                                  *)
(* ------------------------------------------------------------------ *)

(** Up to 2^53 in size a sum is stored as it is. *)
Lemma to_double_exact (z : Z) : Z.abs z <= 2 ^ 53 -> to_double z = z.
Proof.
  intros H. unfold to_double.
  destruct (Z.abs z <=? 2 ^ 53) eqn:E; [reflexivity|].
  apply Z.leb_gt in E. lia.
Qed.

Lemma to_double_exact_safe (z : Z) :
  Z.abs z <= max_safe_integer -> to_double z = z.
Proof.
  intros H. apply to_double_exact. unfold max_safe_integer in H.
  change (2 ^ 53) with 9007199254740992. lia.
Qed.



(* ------------------------------------------------------------------ *)
(** ** The service, unfolded                                            *)
(* ------------------------------------------------------------------ *)

Lemma bookTicket_unfold (pos : Positional) (env : Env) (e s : ObjectId)
    (q : Z) (w : World) :
  bookTicket pos env e s q w =
  if update_up env then
    match find_one_and_update pos e s q (events w) with
    | None =>
        (Thrown (JsError not_enough_seats), w, [CallFindOneAndUpdate e s q])
    | Some (_, evs') =>
        let w1 := mkWorld evs' (bookings w) (S (next_oid w)) in
        let b := mkBooking (next_oid w) e s q (now env) in
        if q <? 1 then
          (Thrown (ValidationError "Booking"), w1, [CallFindOneAndUpdate e s q])
        else if save_up env then
          (Returned b, mkWorld evs' (bookings w ++ [b]) (S (next_oid w)),
           [CallFindOneAndUpdate e s q; CallSaveBooking b])
        else
          (Thrown MongoError, w1, [CallFindOneAndUpdate e s q; CallSaveBooking b])
    end
  else (Thrown MongoError, w, [CallFindOneAndUpdate e s q]).
Proof.
  unfold bookTicket, try_catch, bind, Event_findOneAndUpdate, new_Booking,
    Booking_save, fresh_oid, bind, ret, throw.
  destruct (update_up env); [|reflexivity].
  destruct (find_one_and_update pos e s q (events w)) as [[ev' evs']|];
    [|destruct w; reflexivity].
  cbn. destruct (q <? 1); [reflexivity|].
  destruct (save_up env); reflexivity.
Qed.

(* ------------------------------------------------------------------ *)
(** ** The conditional update                                           *)
(* ------------------------------------------------------------------ *)

Section ConditionalUpdate.

Variable pos : Positional.
Variables e s : ObjectId.
Variable q : Z.

Lemma find_one_and_update_none (evs : list Event) :
  find_one_and_update pos e s q evs = None <->
  Forall (fun ev => filter_matches e s q ev = false) evs.
Proof.
  induction evs as [|ev rest IH]; simpl.
  - split; auto.
  - destruct (filter_matches e s q ev) eqn:Hm.
    + split; [discriminate|]. intros H. inversion H; congruence.
    + destruct (find_one_and_update pos e s q rest) as [[ev' rest']|].
      * split; [discriminate|]. intros H. inversion H; subst.
        destruct IH as [_ IH]. specialize (IH H3). discriminate.
      * split; auto. intros _. constructor; auto. apply IH. reflexivity.
Qed.

(** A successful update rewrites exactly one document, the first one the
    filter matches. *)
Lemma find_one_and_update_some (evs : list Event) ev' evs' :
  find_one_and_update pos e s q evs = Some (ev', evs') ->
  exists l1 ev0 l2,
    evs = l1 ++ ev0 :: l2 /\
    evs' = l1 ++ ev' :: l2 /\
    ev' = apply_update pos s q ev0 /\
    filter_matches e s q ev0 = true /\
    Forall (fun ev => filter_matches e s q ev = false) l1.
Proof.
  revert ev' evs'.
  induction evs as [|ev rest IH]; simpl; intros ev' evs' H; [discriminate|].
  destruct (filter_matches e s q ev) eqn:Hm.
  - inversion H; subst. exists [], ev, rest. repeat split; auto.
  - destruct (find_one_and_update pos e s q rest) as [[u rest']|];
      [|discriminate].
    inversion H; subst.
    destruct (IH _ _ eq_refl) as (l1 & ev0 & l2 & -> & -> & Hu & Hf & Hl1).
    exists (ev :: l1), ev0, l2. repeat split; auto.
Qed.

Lemma inc_positional_ids (p : Section -> bool) (d : Z) (secs : list Section) :
  map sec_id (inc_positional p d secs) = map sec_id secs.
Proof.
  induction secs as [|sec rest IH]; simpl; [reflexivity|].
  destruct (p sec); simpl; [reflexivity|]. now rewrite IH.
Qed.

Lemma inc_positional_length (p : Section -> bool) (d : Z) (secs : list Section) :
  List.length (inc_positional p d secs) = List.length secs.
Proof.
  rewrite <- (length_map sec_id), inc_positional_ids. apply length_map.
Qed.

Lemma apply_update_id (ev : Event) : ev_id (apply_update pos s q ev) = ev_id ev.
Proof. reflexivity. Qed.

Lemma apply_update_section_ids (ev : Event) :
  map sec_id (sections (apply_update pos s q ev)) = map sec_id (sections ev).
Proof. apply inc_positional_ids. Qed.

(** In an event with one section both array conditions speak of the same
    element, and the positional operator can only stand for it. *)
Lemma filter_matches_single (ev : Event) (sec : Section) :
  sections ev = [sec] ->
  filter_matches e s q ev = true ->
  ev_id ev = e /\ sec_id sec = s /\ q <= remaining sec /\
  apply_update pos s q ev =
    mkEvent (ev_id ev) (ev_name ev) [inc_remaining (- q) sec].
Proof.
  unfold filter_matches, has_section, has_remaining, apply_update.
  intros ->. simpl. rewrite !orb_false_r, !andb_true_iff.
  intros [[He Hs] Hq].
  apply Nat.eqb_eq in He, Hs. apply Z.leb_le in Hq.
  repeat split; auto.
  unfold positional_match.
  destruct pos; [apply Z.leb_le in Hq; rewrite Hq | apply Nat.eqb_eq in Hs; rewrite Hs];
    reflexivity.
Qed.

Lemma filter_matches_inv (ev : Event) :
  filter_matches e s q ev = true ->
  ev_id ev = e /\ In s (map sec_id (sections ev)) /\
  exists sec, In sec (sections ev) /\ q <= remaining sec.
Proof.
  unfold filter_matches, has_section, has_remaining.
  rewrite !andb_true_iff, !existsb_exists.
  intros [[He (x & Hx & Hs)] (y & Hy & Hq)].
  apply Nat.eqb_eq in He, Hs. apply Z.leb_le in Hq.
  repeat split; auto.
  - subst s. now apply in_map.
  - now exists y.
Qed.

Lemma find_one_and_update_event_ids (evs : list Event) ev' evs' :
  find_one_and_update pos e s q evs = Some (ev', evs') ->
  map ev_id evs' = map ev_id evs.
Proof.
  intros H. apply find_one_and_update_some in H.
  destruct H as (l1 & ev0 & l2 & -> & -> & -> & _).
  now rewrite !map_app.
Qed.

End ConditionalUpdate.

(* ------------------------------------------------------------------ *)
(** ** The controllers, unfolded                                        *)
(* ------------------------------------------------------------------ *)

Lemma createBooking_unfold (pos : Positional) (env : Env) (b : BookingBody)
    (w : World) :
  createBooking pos env b w =
  match req_eventId b, req_sectionId b, req_qty b with
  | Some e, Some s, Some q =>
      if q =? 0 then (Returned (mkResponse 400 (ErrorJson missing_fields)), w, [])
      else if q <? 1 then
        (Returned (mkResponse 400 (ErrorJson quantity_at_least_one)), w, [])
      else
        match bookTicket pos env e s q w with
        | (Returned bk, w', log) =>
            (Returned (mkResponse 201 (BookingJson booking_successful bk)), w', log)
        | (Thrown err, w', log) =>
            (Returned (booking_error_response err), w', log)
        end
  | _, _, _ => (Returned (mkResponse 400 (ErrorJson missing_fields)), w, [])
  end.
Proof.
  unfold createBooking, try_catch, booking_error_response.
  destruct (req_eventId b) as [e|], (req_sectionId b) as [s|],
    (req_qty b) as [q|]; simpl; try reflexivity.
  destruct (q =? 0); [reflexivity|].
  destruct (q <? 1); [reflexivity|].
  unfold bind.
  destruct (bookTicket pos env e s q w) as [[[bk|err] w'] log]; unfold ret.
  - now rewrite app_nil_r.
  - destruct (_ || _); now rewrite app_nil_r.
Qed.

Lemma new_sections_run (ins : list SectionInput) (w : World) :
  new_sections ins w =
  (Returned (drafts (next_oid w) ins),
   mkWorld (events w) (bookings w) (next_oid w + List.length ins), []).
Proof.
  revert w. induction ins as [|i rest IH]; intros w.
  - simpl. unfold ret. rewrite Nat.add_0_r. now destruct w.
  - cbn [new_sections]. unfold bind at 1. unfold fresh_oid.
    unfold bind at 1. rewrite IH. unfold ret. cbn.
    now rewrite Nat.add_succ_r.
Qed.

Lemma createEvent_unfold (env : Env) (b : EventBody) (w : World) :
  createEvent env b w =
  match req_name b, req_sections b with
  | Some name, Some ins =>
      if String.eqb name "" || (List.length ins =? 0)%nat
      then (Returned (mkResponse 400 (ErrorJson name_and_section_required)), w, [])
      else
        let n := next_oid w in
        let k := List.length ins in
        let w1 := mkWorld (events w) (bookings w) (S n + k) in
        match validate_sections (drafts (S n) (map with_remaining ins)) with
        | None =>
            (Returned (mkResponse 500
                         (ErrorJson (message (ValidationError "Event")))),
             w1, [])
        | Some secs =>
            let ev := mkEvent n name secs in
            if save_up env then
              (Returned (mkResponse 201 (EventJson ev)),
               mkWorld (events w ++ [ev]) (bookings w) (S n + k),
               [CallSaveEvent ev])
            else
              (Returned (mkResponse 500 (ErrorJson (message MongoError))),
               w1, [CallSaveEvent ev])
        end
  | _, _ => (Returned (mkResponse 400 (ErrorJson name_and_section_required)), w, [])
  end.
Proof.
  unfold createEvent, try_catch.
  destruct (req_name b) as [name|], (req_sections b) as [ins|]; try reflexivity.
  unfold not_string.
  destruct (String.eqb name "") eqn:Hn; [reflexivity|].
  destruct (List.length ins =? 0)%nat; [reflexivity|].
  cbn [orb]. unfold new_Event, Event_save, fresh_oid.
  unfold bind at 1. unfold bind at 1. unfold bind at 1.
  rewrite new_sections_run. cbn [next_oid events bookings]. unfold ret at 1.
  rewrite length_map. rewrite Hn.
  destruct (validate_sections _) as [secs|]; [|reflexivity].
  cbn. destruct (save_up env); reflexivity.
Qed.

(* ------------------------------------------------------------------ *)
(** ** Schema validation of the sections of a new event                 *)
(* ------------------------------------------------------------------ *)

Lemma validate_section_some (d : ObjectId * SectionInput) (sec : Section) :
  validate_section d = Some sec ->
  sec_id sec = fst d /\
  in_capacity (snd d) = Some (capacity sec) /\
  in_remaining (snd d) = Some (remaining sec) /\
  1 <= capacity sec.
Proof.
  unfold validate_section.
  destruct (in_name (snd d)) as [n|]; [|discriminate].
  destruct (in_price (snd d)) as [p|]; [|discriminate].
  destruct (in_capacity (snd d)) as [c|]; [|discriminate].
  destruct (in_remaining (snd d)) as [r|]; [|discriminate].
  destruct (String.eqb n ""); [discriminate|].
  destruct (c <? 1) eqn:Hc; [discriminate|].
  simpl. intros H. inversion H; subst; simpl.
  apply Z.ltb_ge in Hc. auto.
Qed.

Lemma validate_sections_some (ds : list (ObjectId * SectionInput))
    (secs : list Section) :
  validate_sections ds = Some secs ->
  Forall2 (fun d sec => validate_section d = Some sec) ds secs.
Proof.
  revert secs. induction ds as [|d rest IH]; simpl; intros secs H.
  - inversion H. constructor.
  - destruct (validate_section d) as [sec|] eqn:Hd; [|discriminate].
    destruct (validate_sections rest) as [secs'|]; [|discriminate].
    inversion H; subst. constructor; auto.
Qed.

Lemma validate_sections_ids (ds : list (ObjectId * SectionInput))
    (secs : list Section) :
  validate_sections ds = Some secs -> map sec_id secs = map fst ds.
Proof.
  intros H. apply validate_sections_some in H.
  induction H as [|d sec ds' secs' Hd _ IH]; simpl; [reflexivity|].
  apply validate_section_some in Hd. destruct Hd as [-> _]. now rewrite IH.
Qed.

(** A section with a capacity below one stops the whole document. *)
Lemma validate_sections_rejects (ds : list (ObjectId * SectionInput))
    (d : ObjectId * SectionInput) (c : Z) :
  In d ds -> in_capacity (snd d) = Some c -> c <= 0 ->
  validate_sections ds = None.
Proof.
  intros Hin Hc Hle.
  induction ds as [|d0 rest IH]; [contradiction|].
  simpl. destruct Hin as [->|Hin].
  - assert (validate_section d = None) as ->; [|reflexivity].
    unfold validate_section. rewrite Hc.
    destruct (in_name (snd d)) as [n|]; [|reflexivity].
    destruct (in_price (snd d)); [|reflexivity].
    destruct (in_remaining (snd d)); [|reflexivity].
    assert ((c <? 1) = true) as -> by (apply Z.ltb_lt; lia).
    now rewrite orb_true_r.
  - rewrite (IH Hin). now destruct (validate_section d0).
Qed.

(* ------------------------------------------------------------------ *)
(** ** Ids stay fresh                                                   *)
(* ------------------------------------------------------------------ *)

Lemma ids_fresh_empty : ids_fresh empty_world.
Proof. split; simpl; constructor. Qed.

(** Freshness only looks at the ids, and survives a generator that moves on. *)
Lemma ids_fresh_same_ids (w : World) (evs' : list Event)
    (bs : list Booking) (n : ObjectId) :
  ids_fresh w ->
  map ev_id evs' = map ev_id (events w) ->
  (next_oid w <= n)%nat ->
  ids_fresh (mkWorld evs' bs n).
Proof.
  intros [H1 H3] He Hn. split; simpl; rewrite ?He; auto.
  eapply Forall_impl; [|exact H3]. simpl. intros; lia.
Qed.

Lemma ids_fresh_bookTicket (pos : Positional) (env : Env) (e s : ObjectId)
    (q : Z) (w : World) :
  ids_fresh w -> ids_fresh (world_of (bookTicket pos env e s q w)).
Proof.
  intros Hw. rewrite bookTicket_unfold.
  destruct (update_up env); [|exact Hw].
  destruct (find_one_and_update pos e s q (events w)) as [[ev' evs']|] eqn:Hu;
    [|exact Hw].
  pose proof (find_one_and_update_event_ids _ _ _ _ _ _ _ Hu) as He.
  cbv zeta.
  destruct (q <? 1); [|destruct (save_up env)];
    unfold world_of; simpl;
    apply (ids_fresh_same_ids w); auto.
Qed.

Lemma ids_fresh_createBooking (pos : Positional) (env : Env)
    (b : BookingBody) (w : World) :
  ids_fresh w -> ids_fresh (world_of (createBooking pos env b w)).
Proof.
  intros Hw. rewrite createBooking_unfold.
  destruct (req_eventId b) as [e|], (req_sectionId b) as [s|],
    (req_qty b) as [q|]; try exact Hw.
  destruct (q =? 0); [exact Hw|]. destruct (q <? 1); [exact Hw|].
  pose proof (ids_fresh_bookTicket pos env e s q w Hw) as H.
  destruct (bookTicket pos env e s q w) as [[[bk|err] w'] log]; exact H.
Qed.

Lemma NoDup_app_below (l : list nat) (a k : nat) :
  NoDup l -> Forall (fun i => (i < a)%nat) l -> NoDup (l ++ seq a k).
Proof.
  intros Hl Hb. induction l as [|x rest IH]; simpl.
  - apply seq_NoDup.
  - inversion Hl; subst. inversion Hb; subst. constructor; auto.
    rewrite in_app_iff. intros [Hin|Hin]; [contradiction|].
    apply in_seq in Hin. lia.
Qed.

Lemma ids_fresh_createEvent (env : Env) (b : EventBody) (w : World) :
  ids_fresh w -> ids_fresh (world_of (createEvent env b w)).
Proof.
  intros Hw. rewrite createEvent_unfold.
  destruct (req_name b) as [name|], (req_sections b) as [ins|]; try exact Hw.
  destruct (_ || _); [exact Hw|]. cbv zeta.
  destruct (validate_sections _) as [secs|] eqn:Hv.
  2:{ unfold world_of; simpl. apply (ids_fresh_same_ids w); auto. lia. }
  destruct (save_up env).
  2:{ unfold world_of; simpl. apply (ids_fresh_same_ids w); auto. lia. }
  destruct Hw as [H1 H3].
  unfold world_of; split; simpl.
  - rewrite map_app. simpl.
    apply (NoDup_app_below _ _ 1 H1 H3).
  - rewrite map_app. apply Forall_app. split.
    + eapply Forall_impl; [|exact H3]. simpl; intros; lia.
    + simpl. constructor; [lia|constructor].
Qed.

Lemma ids_fresh_handle (pos : Positional) (r : Request) (w : World) :
  ids_fresh w -> ids_fresh (world_of (handle pos r w)).
Proof.
  destruct r as [env b|env b|env]; simpl.
  - apply ids_fresh_createEvent.
  - apply ids_fresh_createBooking.
  - intros Hw. unfold listBookings, try_catch, bind, getAllBookings.
    destruct (find_up env); exact Hw.
Qed.

Lemma ids_fresh_serve (pos : Positional) (rs : list Request) (w : World) :
  ids_fresh w -> ids_fresh (serve pos rs w).
Proof.
  revert w. induction rs as [|r rest IH]; intros w Hw; simpl; auto.
  apply IH, ids_fresh_handle, Hw.
Qed.

Lemma reachable_ids_fresh (pos : Positional) (w : World) :
  reachable pos w -> ids_fresh w.
Proof. intros [rs ->]. apply ids_fresh_serve, ids_fresh_empty. Qed.

(* ------------------------------------------------------------------ *)
(** ** Events with a single section                                     *)
(* ------------------------------------------------------------------ *)

Lemma event_id_unique (l1 l2 : list Event) (ev0 ev : Event) :
  NoDup (map ev_id (l1 ++ ev0 :: l2)) ->
  In ev (l1 ++ ev0 :: l2) ->
  ev_id ev = ev_id ev0 ->
  ev = ev0.
Proof.
  rewrite map_app. simpl. intros Hnd Hin Hid.
  apply NoDup_remove_2 in Hnd.
  apply in_app_or in Hin. destruct Hin as [Hin|[Heq|Hin]]; auto.
  - exfalso. apply Hnd, in_or_app. left. rewrite <- Hid. now apply in_map.
  - exfalso. apply Hnd, in_or_app. right. rewrite <- Hid. now apply in_map.
Qed.

Lemma lookup_event_in (e : ObjectId) (evs : list Event) (ev : Event) :
  lookup_event e evs = Some ev -> In ev evs /\ ev_id ev = e.
Proof.
  unfold lookup_event. intros H. apply find_some in H.
  destruct H as [Hin He]. apply Nat.eqb_eq in He. auto.
Qed.

Lemma in_lookup_event (evs : list Event) (ev : Event) :
  NoDup (map ev_id evs) -> In ev evs -> lookup_event (ev_id ev) evs = Some ev.
Proof.
  unfold lookup_event.
  induction evs as [|x rest IH]; simpl; intros Hnd Hin; [contradiction|].
  inversion Hnd as [|? ? Hx Hrest]; subst.
  destruct Hin as [->|Hin].
  - now rewrite Nat.eqb_refl.
  - destruct (Nat.eqb (ev_id x) (ev_id ev)) eqn:He; auto.
    apply Nat.eqb_eq in He. exfalso. apply Hx. rewrite He. now apply in_map.
Qed.




(* ------------------------------------------------------------------ *)
(** ** What a created event holds                                       *)
(* ------------------------------------------------------------------ *)

Lemma drafts_snd (ins : list SectionInput) (n : nat) :
  map snd (drafts n ins) = ins.
Proof.
  revert n. induction ins as [|i rest IH]; intros n; simpl; [reflexivity|].
  now rewrite IH.
Qed.

Lemma validated_sections_stored_from (ins : list SectionInput) :
  forall (ds : list (ObjectId * SectionInput)) (secs : list Section),
    map snd ds = map with_remaining ins ->
    validate_sections ds = Some secs ->
    Forall2 stored_from ins secs.
Proof.
  induction ins as [|i rest IH]; intros ds secs Hds Hv.
  - destruct ds; [|discriminate]. simpl in Hv; inversion Hv; constructor.
  - destruct ds as [|d ds]; [discriminate|].
    simpl in Hds. inversion Hds as [[Hd0 Hrest0]].
    simpl in Hv.
    destruct (validate_section d) as [sec|] eqn:Hd; [|discriminate].
    destruct (validate_sections ds) as [secs'|] eqn:Hrest; [|discriminate].
    inversion Hv; subst. constructor.
    + apply validate_section_some in Hd. rewrite Hd0 in Hd. simpl in Hd.
      destruct Hd as (_ & Hc & Hr & H1).
      unfold stored_from. destruct (in_remaining i) as [r|].
      * inversion Hr. auto.
      * rewrite Hc in Hr. inversion Hr. auto.
    + apply (IH ds); auto.
Qed.

Lemma createEvent_created (env : Env) (b : EventBody) (w w1 : World)
    (ev : Event) (log : list DbCall) :
  createEvent env b w = (Returned (mkResponse 201 (EventJson ev)), w1, log) ->
  exists ins,
    req_sections b = Some ins /\
    Forall2 stored_from ins (sections ev) /\
    ev_id ev = next_oid w /\
    map sec_id (sections ev)
    = map fst (drafts (S (next_oid w)) (map with_remaining ins)) /\
    w1 = mkWorld (events w ++ [ev]) (bookings w)
           (S (next_oid w) + List.length ins) /\
    log = [CallSaveEvent ev].
Proof.
  rewrite createEvent_unfold.
  destruct (req_name b) as [name|], (req_sections b) as [ins|];
    try discriminate.
  destruct (_ || _); [discriminate|]. cbv zeta.
  destruct (validate_sections _) as [secs|] eqn:Hv; [|discriminate].
  destruct (save_up env); [|discriminate].
  intros H. inversion H; subst. exists ins.
  repeat split; auto.
  - simpl. eapply validated_sections_stored_from; [|exact Hv].
    apply drafts_snd.
  - simpl. now apply validate_sections_ids in Hv.
Qed.

(* ================================================================== *)
(** * The allocation primitive                                          *)
(* ================================================================== *)

(** What a returned booking does guarantee: the event exists, it has a
    section with the id asked for, and it has a section, this one or
    another, with enough remaining. *)
Lemma bookTicket_returned (pos : Positional) (env : Env) (e s : ObjectId)
    (q : Z) (w : World) (bk : Booking) :
  outcome_of (bookTicket pos env e s q w) = Returned bk ->
  exists ev, In ev (events w) /\ ev_id ev = e /\
             In s (map sec_id (sections ev)) /\
             exists sec, In sec (sections ev) /\ q <= remaining sec.
Proof.
  rewrite bookTicket_unfold.
  destruct (update_up env); [|discriminate].
  destruct (find_one_and_update pos e s q (events w)) as [[ev' evs']|] eqn:Hu;
    [|discriminate].
  intros _. apply find_one_and_update_some in Hu.
  destruct Hu as (l1 & ev0 & l2 & Hevs & _ & _ & Hm & _).
  apply filter_matches_inv in Hm. exists ev0. rewrite Hevs.
  split; [apply in_or_app; right; now left|]. exact Hm.
Qed.

(** C1, at the input where it fails.  Event 0 has sections 1 (capacity 1)
    and 2 (capacity 5).  After one seat of section 1 is booked, section 1 has
    nothing left; a second call for one seat of section 1 still returns a
    booking.  If the positional operator follows the condition on
    [remaining], the seat is taken from section 2; if it follows the
    condition on [_id], section 1 goes to -1.  The claim asks that the call
    succeed only when the named section has enough remaining, and that the
    named section be the one reduced. *)
Theorem C1_sold_out_section_still_booked :
  forall pos : Positional,
    let first := bookTicket pos (env_up 1) 0 1 1 (created two_sections) in
    let second := bookTicket pos (env_up 2) 0 1 1 (world_of first) in
    remaining_of (world_of first) 0 1 = Some 0 /\
    remaining_of (world_of first) 0 2 = Some 5 /\
    outcome_of second = Returned (mkBooking 4 0 1 1 2) /\
    match pos with
    | ByRemaining =>
        remaining_of (world_of second) 0 1 = Some 0 /\
        remaining_of (world_of second) 0 2 = Some 4
    | BySectionId =>
        remaining_of (world_of second) 0 1 = Some (-1) /\
        remaining_of (world_of second) 0 2 = Some 5
    end.
Proof.
  intros pos. destruct pos; vm_compute; repeat split; reflexivity.
Qed.

(* ================================================================== *)
(** * No oversell                                                       *)
(* ================================================================== *)


(** The run of scripts/simulateConcurrency.js, with the twenty requests
    served one after the other: capacity 5, twenty requests of one seat,
    five bookings, fifteen refusals, nothing remaining. *)
Example twenty_requests_for_five_seats :
  forall pos : Positional,
    let r := run_calls pos (map one_seat (map Z.of_nat (seq 1 20)))
               (created (one_section 5 None)) in
    successes (fst r) = 5%nat /\
    List.length (fst r) = 20%nat /\
    remaining_of (snd r) 0 1 = Some 0 /\
    List.length (bookings (snd r)) = 5%nat.
Proof.
  intros pos. destruct pos; vm_compute; repeat split; reflexivity.
Qed.



(* ================================================================== *)
(** * Atomicity of a refused call                                       *)
(* ================================================================== *)

(** C3.  When the conditional update does not apply (the database gives no
    answer, or no document passes the filter, which covers an unknown
    event, an unknown section and not enough remaining), the call throws,
    no section and no booking changes, and no insert of a booking is sent.
    A call that stores a booking has applied its update first: the events
    it leaves are those of a successful update, and the insert follows the
    update in the round trips. *)
Theorem C3_refused_call_changes_nothing :
  forall (pos : Positional) (env : Env) (e s : ObjectId) (q : Z)
         (w w' : World) (o : Outcome Booking) (log : list DbCall),
    bookTicket pos env e s q w = (o, w', log) ->
    ((update_up env = false \/
      find_one_and_update pos e s q (events w) = None) ->
     (exists err, o = Thrown err) /\
     events w' = events w /\ bookings w' = bookings w /\
     save_attempts log = 0%nat)
    /\
    (o = Thrown (JsError not_enough_seats) ->
     events w' = events w /\ bookings w' = bookings w)
    /\
    (bookings w' <> bookings w ->
     exists ev' bk,
       find_one_and_update pos e s q (events w) = Some (ev', events w') /\
       bookings w' = bookings w ++ [bk] /\ o = Returned bk /\
       log = [CallFindOneAndUpdate e s q; CallSaveBooking bk]).
Proof.
  intros pos env e s q w w' o log. rewrite bookTicket_unfold.
  destruct (update_up env).
  - destruct (find_one_and_update pos e s q (events w)) as [[ev' evs']|] eqn:Hu.
    + cbv zeta. destruct (q <? 1); [|destruct (save_up env)];
        intros H; inversion H; subst; simpl;
        (split; [intros [?|?]; discriminate|]);
        (split; [discriminate|]).
      * intros Hb. now elim Hb.
      * intros _. exists ev', (mkBooking (next_oid w) e s q (now env)).
        repeat split.
      * intros Hb. now elim Hb.
    + intros H; inversion H; subst.
      split; [intros _; repeat split; eauto|].
      split; [intros _; split; reflexivity|].
      intros Hb. now elim Hb.
  - intros H; inversion H; subst.
    split; [intros _; repeat split; eauto|].
    split; [discriminate|].
    intros Hb. now elim Hb.
Qed.

(** Four seats asked of a section that holds three. *)
Lemma C3_refused_call_changes_nothing_witness :
  (update_up (env_up 1) = false \/
   find_one_and_update ByRemaining 0 1 4 (events (created (one_section 3 None)))
     = None) /\
  (exists err, Thrown (JsError not_enough_seats) = Thrown (A := Booking) err) /\
  events (created (one_section 3 None)) = events (created (one_section 3 None)) /\
  bookings (created (one_section 3 None)) = bookings (created (one_section 3 None)) /\
  save_attempts [CallFindOneAndUpdate 0 1 4] = 0%nat.
Proof.
  assert (H : find_one_and_update ByRemaining 0 1 4
                (events (created (one_section 3 None))) = None) by reflexivity.
  split; [right; exact H|].
  apply (proj1 (C3_refused_call_changes_nothing ByRemaining (env_up 1) 0 1 4
                  (created (one_section 3 None)) (created (one_section 3 None))
                  (Thrown (JsError not_enough_seats))
                  [CallFindOneAndUpdate 0 1 4] eq_refl)).
  right; exact H.
Defined.

(* ================================================================== *)
(** * Unknown event or section                                          *)
(* ================================================================== *)

(** An unknown event or an unknown section makes the filter fail, and the
    service then throws the message of a sold-out section. *)
Lemma bookTicket_unknown_ids (pos : Positional) (env : Env) (e s : ObjectId)
    (q : Z) (w : World) :
  update_up env = true ->
  (forall ev, In ev (events w) -> ev_id ev = e ->
              ~ In s (map sec_id (sections ev))) ->
  bookTicket pos env e s q w
  = (Thrown (JsError not_enough_seats), w, [CallFindOneAndUpdate e s q]).
Proof.
  intros Hup Hunknown. rewrite bookTicket_unfold, Hup.
  assert (find_one_and_update pos e s q (events w) = None) as ->; [|reflexivity].
  apply find_one_and_update_none, Forall_forall. intros ev Hin.
  destruct (filter_matches e s q ev) eqn:Hm; [|reflexivity].
  apply filter_matches_inv in Hm. destruct Hm as (He & Hs & _).
  elim (Hunknown ev Hin He Hs).
Qed.

(** C5, at the input where it fails.  The service never throws
    "Event or Section not found", the message the controller is prepared
    for.  On a database whose only event is 0 with section 1 (3 seats), a
    request for an unknown event, a request for an unknown section and a
    request for more seats than remain get the same answer from the
    service and from the controller: 400, "Not enough seats available". *)
Theorem C5_unknown_ids_answered_as_not_enough_seats :
  (forall (pos : Positional) (env : Env) (e s : ObjectId) (q : Z) (w : World),
      outcome_of (bookTicket pos env e s q w)
        <> Thrown (JsError section_not_found))
  /\
  (forall pos : Positional,
      let w := created (one_section 3 None) in
      let answer := Returned (mkResponse 400 (ErrorJson not_enough_seats)) in
      outcome_of (bookTicket pos (env_up 1) 7 1 1 w)
        = Thrown (JsError not_enough_seats) /\
      outcome_of (bookTicket pos (env_up 1) 0 9 1 w)
        = Thrown (JsError not_enough_seats) /\
      outcome_of (bookTicket pos (env_up 1) 0 1 4 w)
        = Thrown (JsError not_enough_seats) /\
      outcome_of (createBooking pos (env_up 1)
                    (mkBookingBody (Some 7%nat) (Some 1%nat) (Some 1)) w) = answer /\
      outcome_of (createBooking pos (env_up 1)
                    (mkBookingBody (Some 0%nat) (Some 9%nat) (Some 1)) w) = answer /\
      outcome_of (createBooking pos (env_up 1)
                    (mkBookingBody (Some 0%nat) (Some 1%nat) (Some 4)) w) = answer).
Proof.
  split.
  - intros pos env e s q w. rewrite bookTicket_unfold.
    destruct (update_up env); [|discriminate].
    destruct (find_one_and_update pos e s q (events w)) as [[ev' evs']|];
      [|discriminate].
    cbv zeta. destruct (q <? 1); [|destruct (save_up env)]; discriminate.
  - intros pos. destruct pos; vm_compute; repeat split; reflexivity.
Qed.

(* ================================================================== *)
(** * Creating an event                                                 *)
(* ================================================================== *)

Lemma in_drafts (l : list SectionInput) (x : SectionInput) :
  forall a : nat, In x l -> exists n, In (n, x) (drafts a l).
Proof.
  induction l as [|y rest IH]; intros a Hin; [contradiction|].
  simpl. destruct Hin as [->|Hin].
  - eexists. now left.
  - destruct (IH (S a) Hin) as [n Hn]. exists n. now right.
Qed.

Lemma validate_well_formed (ins : list SectionInput) :
  forallb well_formed_input ins = true ->
  forall a : nat,
    exists secs, validate_sections (drafts a (map with_remaining ins)) = Some secs.
Proof.
  induction ins as [|i rest IH]; intros Hwf a.
  - now exists [].
  - simpl in Hwf. apply andb_true_iff in Hwf. destruct Hwf as [Hi Hrest].
    destruct (IH Hrest (S a)) as [secs Hsecs].
    unfold well_formed_input in Hi.
    destruct (in_name i) as [n|] eqn:Hn; [|discriminate].
    destruct (in_price i) as [p|] eqn:Hp; [|discriminate].
    destruct (in_capacity i) as [c|] eqn:Hc; [|discriminate].
    apply andb_true_iff in Hi. destruct Hi as [Hne Hle].
    apply negb_true_iff in Hne. apply Z.leb_le in Hle.
    simpl. rewrite Hsecs. unfold validate_section, with_remaining. simpl.
    rewrite Hn, Hp, Hc, Hne.
    assert ((c <? 1) = false) as -> by (apply Z.ltb_ge; lia).
    destruct (in_remaining i); simpl; eauto.
Qed.

(** C6 fails as stated.  A request with [remaining: 50] for a section of
    capacity 3 is accepted, with 201, and the section starts with 50
    remaining, not with its capacity. *)
Lemma C6_remaining_differs_from_capacity :
  exists sec,
    createEvent (env_up 0) (one_section 3 (Some 50)) empty_world
    = (Returned (mkResponse 201 (EventJson (mkEvent 0 "Concert" [sec]))),
       mkWorld [mkEvent 0 "Concert" [sec]] [] 2,
       [CallSaveEvent (mkEvent 0 "Concert" [sec])]) /\
    capacity sec = 3 /\ remaining sec = 50 /\
    remaining sec <> capacity sec.
Proof.
  exists (mkSection 1 "VIP" 100 3 50). vm_compute. repeat split; discriminate.
Qed.

(** A section whose capacity is 0 or less never passes the schema. *)
Lemma low_capacity_not_validated (ins : list SectionInput) (i : SectionInput)
    (c : Z) (a : nat) :
  In i ins -> in_capacity i = Some c -> c <= 0 ->
  validate_sections (drafts a (map with_remaining ins)) = None.
Proof.
  intros Hi Hc Hle.
  destruct (in_drafts (map with_remaining ins) (with_remaining i) a
              (in_map with_remaining ins i Hi)) as [n Hin].
  now apply (validate_sections_rejects _ (n, with_remaining i) c).
Qed.

(** With a name and a capacity of 0 or less in the request, the document
    does not pass the schema and the answer leaves through the catch; the
    ids handed to the document that was not stored are gone. *)
Lemma createEvent_low_capacity (env : Env) (b : EventBody) (w : World)
    (ins : list SectionInput) (i : SectionInput) (c : Z) :
  not_string (req_name b) = false ->
  req_sections b = Some ins -> In i ins ->
  in_capacity i = Some c -> c <= 0 ->
  createEvent env b w
  = (Returned (mkResponse 500 (ErrorJson (message (ValidationError "Event")))),
     mkWorld (events w) (bookings w) (S (next_oid w) + List.length ins), []).
Proof.
  intros Hname Hins Hi Hc Hle. rewrite createEvent_unfold, Hins.
  destruct (req_name b) as [name|]; [|discriminate]. simpl in Hname.
  rewrite Hname.
  assert ((List.length ins =? 0)%nat = false) as ->
    by (destruct ins; [contradiction|reflexivity]).
  cbn [orb]. cbv zeta.
  now rewrite (low_capacity_not_validated ins i c _ Hi Hc Hle).
Qed.

(** C6, amended.  createEvent always answers.  When it answers 201 the
    event is appended to the collection and each section holds the capacity
    of its request, at least 1, and as remaining the [remaining] of its
    request, or its capacity when the request has none.  An empty list of
    sections is refused with 400 before anything is done.  A request with a
    capacity of 0 or less is never answered 201 and leaves both collections
    as they were. *)
Theorem C6_createEvent_outcomes :
  forall (env : Env) (b : EventBody) (w w' : World)
         (o : Outcome Response) (log : list DbCall),
    createEvent env b w = (o, w', log) ->
    exists r, o = Returned r /\
    (status r = 201 ->
     exists ev ins,
       body r = EventJson ev /\ req_sections b = Some ins /\
       events w' = events w ++ [ev] /\
       Forall2 stored_from ins (sections ev)) /\
    (req_sections b = Some [] ->
     r = mkResponse 400 (ErrorJson name_and_section_required) /\
     w' = w /\ log = []) /\
    (forall ins i c,
        req_sections b = Some ins -> In i ins ->
        in_capacity i = Some c -> c <= 0 ->
        status r <> 201 /\
        events w' = events w /\ bookings w' = bookings w).
Proof.
  intros env b w w' o log Hrun.
  assert (Hlow : forall ins i c,
             req_sections b = Some ins -> In i ins ->
             in_capacity i = Some c -> c <= 0 ->
             exists r, o = Returned r /\ status r <> 201 /\
                       events w' = events w /\ bookings w' = bookings w).
  { intros ins i c Hins Hi Hc Hle.
    destruct (not_string (req_name b)) eqn:Hname.
    - rewrite createEvent_unfold, Hins in Hrun.
      destruct (req_name b) as [name|].
      + simpl in Hname. rewrite Hname in Hrun. inversion Hrun; subst.
        eexists. split; [reflexivity|]. simpl. repeat split; auto. discriminate.
      + inversion Hrun; subst.
        eexists. split; [reflexivity|]. simpl. repeat split; auto. discriminate.
    - rewrite (createEvent_low_capacity env b w ins i c Hname Hins Hi Hc Hle)
        in Hrun.
      inversion Hrun; subst.
      eexists. split; [reflexivity|]. simpl. repeat split; auto. discriminate. }
  pose proof Hrun as Hcreated.
  rewrite createEvent_unfold in Hrun.
  destruct (req_sections b) as [ins|] eqn:Hins.
  2:{ assert (o = Returned (mkResponse 400 (ErrorJson name_and_section_required)))
        as -> by (destruct (req_name b); now inversion Hrun).
      eexists. split; [reflexivity|]. simpl.
      repeat split; discriminate. }
  destruct ins as [|i0 rest].
  { assert ((o, w', log) =
            (Returned (mkResponse 400 (ErrorJson name_and_section_required)),
             w, @nil DbCall)) as Heq.
    { destruct (req_name b) as [name|]; [|now inversion Hrun].
      simpl in Hrun. rewrite orb_true_r in Hrun. now inversion Hrun. }
    inversion Heq; subst.
    eexists. split; [reflexivity|]. simpl.
    split; [discriminate|]. split; [auto|].
    intros ins i c [= <-] []. }
  assert (Hret : exists r, o = Returned r).
  { destruct (req_name b) as [name|]; [|inversion Hrun; eauto].
    destruct (_ || _); [inversion Hrun; eauto|]. cbv zeta in Hrun.
    destruct (validate_sections _); [destruct (save_up env)|];
      inversion Hrun; eauto. }
  destruct Hret as [r ->]. exists r. split; [reflexivity|].
  split; [|split; [discriminate|]].
  - intros H201.
    destruct r as [st bd]. simpl in H201. subst st.
    assert (exists ev, bd = EventJson ev) as [ev ->].
    { destruct (req_name b) as [name|]; [|inversion Hrun].
      destruct (_ || _); [inversion Hrun|]. cbv zeta in Hrun.
      destruct (validate_sections _); [destruct (save_up env)|];
        inversion Hrun; eauto. }
    apply createEvent_created in Hcreated.
    destruct Hcreated as (ins & Hins' & Hst & _ & _ & -> & _).
    exists ev, ins. repeat split; auto. congruence.
  - intros ins i c Hins' Hi Hc Hle.
    destruct (Hlow ins i c Hins' Hi Hc Hle) as (r' & [= <-] & H).
    exact H.
Qed.

(** The request of one section with capacity 3 and no [remaining]:
    stored, with 3 remaining. *)
Lemma C6_createEvent_outcomes_witness :
  let ev := mkEvent 0 "Concert" [mkSection 1 "VIP" 100 3 3] in
  let w' := mkWorld [ev] [] 2 in
  createEvent (env_up 0) (one_section 3 None) empty_world
  = (Returned (mkResponse 201 (EventJson ev)), w', [CallSaveEvent ev])
  /\
  exists r,
    Returned (mkResponse 201 (EventJson ev)) = Returned r /\
    (status r = 201 ->
     exists ev' ins,
       body r = EventJson ev' /\ req_sections (one_section 3 None) = Some ins /\
       events w' = events empty_world ++ [ev'] /\
       Forall2 stored_from ins (sections ev')) /\
    (req_sections (one_section 3 None) = Some [] ->
     r = mkResponse 400 (ErrorJson name_and_section_required) /\
     w' = empty_world /\ [CallSaveEvent ev] = []) /\
    (forall ins i c,
        req_sections (one_section 3 None) = Some ins -> In i ins ->
        in_capacity i = Some c -> c <= 0 ->
        status r <> 201 /\
        events w' = events empty_world /\
        bookings w' = bookings empty_world).
Proof.
  intros ev w'.
  assert (H : createEvent (env_up 0) (one_section 3 None) empty_world
              = (Returned (mkResponse 201 (EventJson ev)), w',
                 [CallSaveEvent ev])) by reflexivity.
  split; [exact H|].
  exact (C6_createEvent_outcomes (env_up 0) (one_section 3 None) empty_world
           w' (Returned (mkResponse 201 (EventJson ev))) [CallSaveEvent ev] H).
Defined.

(* ================================================================== *)
(** * A refused insert after a successful decrement                     *)
(* ================================================================== *)




(* ================================================================== *)
(** * Quantities below one                                              *)
(* ================================================================== *)

(** C8.  A request whose qty is 0 or negative is answered 400, the two
    collections and the id generator are as before, and no round trip to
    the database was made. *)
Theorem C8_nonpositive_qty_rejected_locally :
  forall (pos : Positional) (env : Env) (b : BookingBody) (w : World) (q : Z),
    req_qty b = Some q ->
    q <= 0 ->
    exists msg,
      createBooking pos env b w
        = (Returned (mkResponse 400 (ErrorJson msg)), w, []) /\
      (msg = missing_fields \/ msg = quantity_at_least_one).
Proof.
  intros pos env b w q Hb Hq. rewrite createBooking_unfold, Hb.
  destruct (req_eventId b) as [e|]; [|eauto].
  destruct (req_sectionId b) as [s|]; [|eauto].
  destruct (q =? 0); [eauto|].
  assert ((q <? 1) = true) as -> by (apply Z.ltb_lt; lia).
  eauto.
Qed.

(** A request for -2 seats. *)
Lemma C8_nonpositive_qty_rejected_locally_witness :
  (req_qty (mkBookingBody (Some 0%nat) (Some 1%nat) (Some (-2))) = Some (-2) /\
   -2 <= 0) /\
  exists msg,
    createBooking ByRemaining (env_up 1)
      (mkBookingBody (Some 0%nat) (Some 1%nat) (Some (-2)))
      (created (one_section 2 None))
    = (Returned (mkResponse 400 (ErrorJson msg)),
       created (one_section 2 None), []) /\
    (msg = missing_fields \/ msg = quantity_at_least_one).
Proof.
  assert (H1 : req_qty (mkBookingBody (Some 0%nat) (Some 1%nat) (Some (-2)))
               = Some (-2)) by reflexivity.
  assert (H2 : -2 <= 0) by lia.
  split; [auto|].
  exact (C8_nonpositive_qty_rejected_locally ByRemaining (env_up 1) _
           (created (one_section 2 None)) (-2) H1 H2).
Defined.

(* ================================================================== *)
(** * Listing the bookings                                              *)
(* ================================================================== *)

Lemma insert_newest_first_perm (b : Booking) (l : list Booking) :
  Permutation (insert_newest_first b l) (b :: l).
Proof.
  induction l as [|x rest IH]; simpl; [reflexivity|].
  destruct (createdAt x <=? createdAt b); [reflexivity|].
  rewrite IH. apply perm_swap.
Qed.

Lemma sort_newest_first_perm (l : list Booking) :
  Permutation (sort_newest_first l) l.
Proof.
  induction l as [|b rest IH]; simpl; [reflexivity|].
  rewrite insert_newest_first_perm. now constructor.
Qed.

Lemma insert_newest_first_sorted (b : Booking) (l : list Booking) :
  StronglySorted newer_or_equal l ->
  StronglySorted newer_or_equal (insert_newest_first b l).
Proof.
  induction l as [|x rest IH]; simpl; intros Hs.
  - repeat constructor.
  - inversion Hs as [|? ? Hrest Hx]; subst.
    destruct (createdAt x <=? createdAt b) eqn:Hle.
    + apply Z.leb_le in Hle. constructor; [exact Hs|].
      constructor; [exact Hle|].
      eapply Forall_impl; [|exact Hx]. unfold newer_or_equal. intros; lia.
    + apply Z.leb_gt in Hle. constructor; [now apply IH|].
      apply (Permutation_Forall (Permutation_sym (insert_newest_first_perm b rest))).
      constructor; [unfold newer_or_equal; lia|exact Hx].
Qed.

Lemma sort_newest_first_sorted (l : list Booking) :
  StronglySorted newer_or_equal (sort_newest_first l).
Proof.
  induction l as [|b rest IH]; simpl; [constructor|].
  now apply insert_newest_first_sorted.
Qed.

Lemma populate_docs (evs : list Event) (l : list Booking) :
  map pb_doc (map (populate_eventId evs) l) = l.
Proof.
  rewrite map_map. simpl. apply map_id.
Qed.

(** C9.  When the database answers, getAllBookings returns every stored
    booking exactly once (each with the name of its event looked up), and
    the sequence is ordered by [createdAt], newest first; the controller
    sends it with status 200. *)
Theorem C9_bookings_listed_newest_first :
  forall (env : Env) (w : World),
    find_up env = true ->
    exists l,
      getAllBookings env w = (Returned l, w, [CallFindBookings]) /\
      listBookings env w
        = (Returned (mkResponse 200 (BookingsJson l)), w, [CallFindBookings]) /\
      Permutation (map pb_doc l) (bookings w) /\
      StronglySorted newer_or_equal (map pb_doc l) /\
      Forall (fun p => p = populate_eventId (events w) (pb_doc p)) l.
Proof.
  intros env w Hup.
  exists (map (populate_eventId (events w)) (sort_newest_first (bookings w))).
  unfold listBookings, try_catch, bind, getAllBookings. rewrite Hup.
  rewrite populate_docs.
  repeat split.
  - apply sort_newest_first_perm.
  - apply sort_newest_first_sorted.
  - apply Forall_forall. intros p Hp. apply in_map_iff in Hp.
    destruct Hp as (b & <- & _). reflexivity.
Qed.

(** Three bookings stored at 10, 30 and 20. *)
Lemma C9_bookings_listed_newest_first_witness :
  let w := mkWorld [mkEvent 0 "Concert" [mkSection 1 "VIP" 100 3 0]]
             [mkBooking 2 0 1 1 10; mkBooking 3 0 1 1 30; mkBooking 4 0 1 1 20]
             5 in
  find_up (env_up 40) = true /\
  exists l,
    getAllBookings (env_up 40) w = (Returned l, w, [CallFindBookings]) /\
    listBookings (env_up 40) w
      = (Returned (mkResponse 200 (BookingsJson l)), w, [CallFindBookings]) /\
    Permutation (map pb_doc l) (bookings w) /\
    StronglySorted newer_or_equal (map pb_doc l) /\
    Forall (fun p => p = populate_eventId (events w) (pb_doc p)) l.
Proof.
  intros w.
  assert (H : find_up (env_up 40) = true) by reflexivity.
  split; [exact H|].
  exact (C9_bookings_listed_newest_first (env_up 40) w H).
Defined.

(** The order of the listing on three bookings stored at 10, 30 and 20. *)
Example listing_of_three :
  map (fun p => createdAt (pb_doc p))
      (map (populate_eventId [])
           (sort_newest_first
              [mkBooking 2 0 1 1 10; mkBooking 3 0 1 1 30; mkBooking 4 0 1 1 20]))
  = [30; 20; 10].
Proof. reflexivity. Qed.

(* ================================================================== *)
(** * A [remaining] field in the request                                *)
(* ================================================================== *)

(** C10.  For a request with a name and a non-empty list of sections, each
    with a name, a price and a capacity of at least 1, and with the database
    accepting the insert: whatever the [remaining] fields hold, the event
    is created, and each section stores the [remaining] of its request when
    there is one and its capacity only when there is none.  No hypothesis
    relates [remaining] to 0 or to the capacity. *)
Theorem C10_supplied_remaining_is_stored :
  forall (env : Env) (w : World) (name : string) (ins : list SectionInput),
    save_up env = true ->
    String.eqb name "" = false ->
    ins <> [] ->
    forallb well_formed_input ins = true ->
    exists ev,
      createEvent env (mkEventBody (Some name) (Some ins)) w
        = (Returned (mkResponse 201 (EventJson ev)),
           mkWorld (events w ++ [ev]) (bookings w)
             (S (next_oid w) + List.length ins),
           [CallSaveEvent ev]) /\
      Forall2 (fun i sec =>
                 in_capacity i = Some (capacity sec) /\
                 remaining sec = match in_remaining i with
                                 | Some r => r
                                 | None => capacity sec
                                 end)
              ins (sections ev).
Proof.
  intros env w name ins Hsave Hname Hne Hwf.
  destruct (validate_well_formed ins Hwf (S (next_oid w))) as [secs Hsecs].
  exists (mkEvent (next_oid w) name secs).
  rewrite createEvent_unfold. cbn [req_name req_sections]. rewrite Hname.
  assert ((List.length ins =? 0)%nat = false) as ->
    by (destruct ins; [contradiction|reflexivity]).
  cbn [orb]. cbv zeta.
  rewrite Hsecs, Hsave. split; [reflexivity|].
  pose proof (validated_sections_stored_from ins _ secs (drafts_snd _ _) Hsecs)
    as Hst.
  eapply Forall2_impl; [|exact Hst].
  intros i sec (H1 & _ & H2). auto.
Qed.

(** Three sections: 50 remaining of 3, -4 remaining of 5, and no
    [remaining] field for a capacity of 7. *)
Lemma C10_supplied_remaining_is_stored_witness :
  let ins := [section_input "VIP" 100 3 (Some 50);
              section_input "General" 50 5 (Some (-4));
              section_input "Balcony" 20 7 None] in
  (save_up (env_up 0) = true /\ String.eqb "Concert" "" = false /\
   ins <> [] /\ forallb well_formed_input ins = true) /\
  exists ev,
    createEvent (env_up 0) (mkEventBody (Some "Concert"%string) (Some ins))
      empty_world
      = (Returned (mkResponse 201 (EventJson ev)),
         mkWorld (events empty_world ++ [ev]) (bookings empty_world)
           (S (next_oid empty_world) + List.length ins),
         [CallSaveEvent ev]) /\
    Forall2 (fun i sec =>
               in_capacity i = Some (capacity sec) /\
               remaining sec = match in_remaining i with
                               | Some r => r
                               | None => capacity sec
                               end)
            ins (sections ev).
Proof.
  intros ins.
  assert (H1 : save_up (env_up 0) = true) by reflexivity.
  assert (H2 : String.eqb "Concert" "" = false) by reflexivity.
  assert (H3 : ins <> []) by discriminate.
  assert (H4 : forallb well_formed_input ins = true) by reflexivity.
  split; [auto|].
  exact (C10_supplied_remaining_is_stored (env_up 0) empty_world "Concert" ins
           H1 H2 H3 H4).
Defined.

(** The sections the request of the witness creates: 50 remaining of a
    capacity of 3, -4 remaining of a capacity of 5, and 7 of 7. *)
Example remaining_out_of_range_is_stored :
  map (fun sec => (capacity sec, remaining sec))
      (flat_map sections
         (events (created
            (mkEventBody (Some "Concert"%string)
               (Some [section_input "VIP" 100 3 (Some 50);
                      section_input "General" 50 5 (Some (-4));
                      section_input "Balcony" 20 7 None])))))
  = [(3, 50); (5, -4); (7, 7)].
Proof. reflexivity. Qed.

(* ================================================================== *)
(** * Reading an event back                                             *)
(* ================================================================== *)

Lemma lookup_event_none (e : ObjectId) (evs : list Event) :
  lookup_event e evs = None <-> (forall ev, In ev evs -> ev_id ev <> e).
Proof.
  unfold lookup_event. split.
  - intros H ev Hin He. apply (find_none _ _ H) in Hin.
    apply Nat.eqb_neq in Hin. contradiction.
  - intros H. destruct (find _ evs) as [ev|] eqn:Hf; [|reflexivity].
    apply find_some in Hf. destruct Hf as [Hin He].
    apply Nat.eqb_eq in He. elim (H ev Hin He).
Qed.

(** With distinct ids, the conditional update rewrites the very event that
    passes the filter. *)
Lemma find_one_and_update_hits (pos : Positional) (e s : ObjectId) (q : Z)
    (evs : list Event) (ev : Event) :
  NoDup (map ev_id evs) ->
  In ev evs ->
  filter_matches e s q ev = true ->
  exists l1 l2,
    evs = l1 ++ ev :: l2 /\
    find_one_and_update pos e s q evs
    = Some (apply_update pos s q ev, l1 ++ apply_update pos s q ev :: l2).
Proof.
  intros Hnd Hin Hm.
  destruct (find_one_and_update pos e s q evs) as [[ev' evs']|] eqn:Hu.
  - apply find_one_and_update_some in Hu.
    destruct Hu as (l1 & ev0 & l2 & Hevs & -> & -> & Hm0 & _).
    assert (ev = ev0) as <-.
    { rewrite Hevs in Hnd, Hin. apply (event_id_unique l1 l2 ev0 ev Hnd Hin).
      apply filter_matches_inv in Hm, Hm0.
      destruct Hm as [-> _], Hm0 as [-> _]. reflexivity. }
    now exists l1, l2.
  - apply find_one_and_update_none in Hu. rewrite Forall_forall in Hu.
    rewrite (Hu ev Hin) in Hm. discriminate.
Qed.

(** An answer 201 of createBooking, read backwards. *)
Lemma createBooking_created (pos : Positional) (env : Env) (b : BookingBody)
    (w w' : World) (r : Response) (log : list DbCall) :
  createBooking pos env b w = (Returned r, w', log) ->
  status r = 201 ->
  exists e s q ev' evs',
    req_eventId b = Some e /\ req_sectionId b = Some s /\
    req_qty b = Some q /\ 1 <= q /\
    update_up env = true /\ save_up env = true /\
    find_one_and_update pos e s q (events w) = Some (ev', evs') /\
    r = mkResponse 201
          (BookingJson booking_successful
             (mkBooking (next_oid w) e s q (now env))) /\
    w' = mkWorld evs'
           (bookings w ++ [mkBooking (next_oid w) e s q (now env)])
           (S (next_oid w)) /\
    log = [CallFindOneAndUpdate e s q;
           CallSaveBooking (mkBooking (next_oid w) e s q (now env))].
Proof.
  rewrite createBooking_unfold.
  destruct (req_eventId b) as [e|]; [|intros [= <- _ _]; discriminate].
  destruct (req_sectionId b) as [s|]; [|intros [= <- _ _]; discriminate].
  destruct (req_qty b) as [q|]; [|intros [= <- _ _]; discriminate].
  destruct (q =? 0); [intros [= <- _ _]; discriminate|].
  destruct (q <? 1) eqn:Hq; [intros [= <- _ _]; discriminate|].
  apply Z.ltb_ge in Hq.
  rewrite bookTicket_unfold.
  assert (Herr : forall err, status (booking_error_response err) <> 201).
  { intros err. unfold booking_error_response.
    destruct (_ || _); simpl; discriminate. }
  destruct (update_up env).
  2:{ intros [= <- _ _] H. elim (Herr _ H). }
  destruct (find_one_and_update pos e s q (events w)) as [[ev' evs']|] eqn:Hu.
  2:{ intros [= <- _ _] H. elim (Herr _ H). }
  cbv zeta. assert ((q <? 1) = false) as -> by (apply Z.ltb_ge; lia).
  destruct (save_up env).
  2:{ intros [= <- _ _] H. elim (Herr _ H). }
  intros [= <- <- <-] _. exists e, s, q, ev', evs'. repeat split; auto.
Qed.

(** X1.  An event that createEvent has stored is read back by getEvent
    as it was answered, and the events stored before it are still read
    back as they are. *)
Theorem X1_created_event_is_read_back :
  forall (pos : Positional) (env genv : Env) (b : EventBody)
         (w0 w1 : World) (ev : Event) (log : list DbCall),
    reachable pos w0 ->
    createEvent env b w0 = (Returned (mkResponse 201 (EventJson ev)), w1, log) ->
    find_up genv = true ->
    getEvent genv (WellFormedId (ev_id ev)) w1
      = (mkResponse 200 (EventJson ev), [CallFindById (ev_id ev)]) /\
    forall ev0, In ev0 (events w0) ->
      getEvent genv (WellFormedId (ev_id ev0)) w1
      = (mkResponse 200 (EventJson ev0), [CallFindById (ev_id ev0)]).
Proof.
  intros pos env genv b w0 w1 ev log Hreach Hcreate Hup.
  pose proof (ids_fresh_createEvent env b w0 (reachable_ids_fresh pos w0 Hreach))
    as Hfresh.
  rewrite Hcreate in Hfresh. unfold world_of in Hfresh. simpl in Hfresh.
  apply createEvent_created in Hcreate.
  destruct Hcreate as (ins & _ & _ & _ & _ & Hw1 & _).
  pose proof (event_ids_nodup _ Hfresh) as Hnd. rewrite Hw1 in Hnd |- *.
  simpl in Hnd.
  assert (Hget : forall x, In x (events w0 ++ [ev]) ->
            getEvent genv (WellFormedId (ev_id x))
              (mkWorld (events w0 ++ [ev]) (bookings w0)
                 (S (next_oid w0) + List.length ins))
            = (mkResponse 200 (EventJson x), [CallFindById (ev_id x)])).
  { intros x Hx. unfold getEvent, Event_findById. rewrite Hup. simpl.
    now rewrite (in_lookup_event _ _ Hnd Hx). }
  split.
  - apply Hget, in_or_app. right. now left.
  - intros ev0 Hin. apply Hget, in_or_app. now left.
Qed.

(** An event of two sections created on the empty database. *)
Lemma X1_created_event_is_read_back_witness :
  let ev := mkEvent 0 "Concert" [mkSection 1 "VIP" 100 1 1;
                                 mkSection 2 "General" 50 5 5] in
  (reachable ByRemaining empty_world /\ find_up (env_up 9) = true) /\
  getEvent (env_up 9) (WellFormedId 0) (created two_sections)
    = (mkResponse 200 (EventJson ev), [CallFindById 0]) /\
  forall ev0, In ev0 (events empty_world) ->
    getEvent (env_up 9) (WellFormedId (ev_id ev0)) (created two_sections)
    = (mkResponse 200 (EventJson ev0), [CallFindById (ev_id ev0)]).
Proof.
  intros ev.
  assert (H1 : reachable ByRemaining empty_world) by (now exists []).
  assert (H2 : find_up (env_up 9) = true) by reflexivity.
  split; [auto|].
  exact (X1_created_event_is_read_back ByRemaining (env_up 0) (env_up 9)
           two_sections empty_world (created two_sections) ev
           [CallSaveEvent ev] H1 eq_refl H2).
Defined.

(** X2.  For an id that Mongoose can cast and a database that answers,
    getEvent answers 404 "Event not found" exactly when no stored event
    has the id, and an answer 200 carries a stored event with the id asked
    for.  For an id that Mongoose cannot cast the answer is 500 and the
    database is not asked, whatever it holds.  When the database does not
    answer, the answer is 500. *)
Theorem X2_getEvent_answers :
  forall (env : Env) (w : World),
    (forall id : ObjectId,
        find_up env = true ->
        (fst (getEvent env (WellFormedId id) w)
         = mkResponse 404 (ErrorJson event_not_found)
         <-> forall ev, In ev (events w) -> ev_id ev <> id) /\
        (forall ev,
            fst (getEvent env (WellFormedId id) w)
            = mkResponse 200 (EventJson ev) ->
            In ev (events w) /\ ev_id ev = id) /\
        (status (fst (getEvent env (WellFormedId id) w)) = 200 \/
         status (fst (getEvent env (WellFormedId id) w)) = 404) /\
        snd (getEvent env (WellFormedId id) w) = [CallFindById id])
    /\
    (forall complaint : string,
        exists msg,
          getEvent env (IllFormedId complaint) w
          = (mkResponse 500 (ErrorJson msg), []))
    /\
    (forall id : ObjectId,
        find_up env = false ->
        exists msg,
          getEvent env (WellFormedId id) w
          = (mkResponse 500 (ErrorJson msg), [CallFindById id])).
Proof.
  intros env w. unfold getEvent, Event_findById. split; [|split].
  - intros id ->.
    destruct (lookup_event id (events w)) as [ev|] eqn:Hl; simpl.
    + apply lookup_event_in in Hl. destruct Hl as [Hin Hid].
      repeat split; auto.
      * discriminate.
      * intros H. elim (H ev Hin Hid).
      * inversion H; subst; auto.
      * inversion H; subst; auto.
    + repeat split; auto.
      * intros _. now apply lookup_event_none.
      * discriminate.
      * discriminate.
  - intros complaint. eexists. reflexivity.
  - intros id ->. eexists. reflexivity.
Qed.

(** An id that no event of the database has. *)
Lemma X2_getEvent_answers_witness :
  find_up (env_up 9) = true /\
  (fst (getEvent (env_up 9) (WellFormedId 7) (created two_sections))
   = mkResponse 404 (ErrorJson event_not_found)
   <-> forall ev, In ev (events (created two_sections)) -> ev_id ev <> 7%nat) /\
  (forall ev,
      fst (getEvent (env_up 9) (WellFormedId 7) (created two_sections))
      = mkResponse 200 (EventJson ev) ->
      In ev (events (created two_sections)) /\ ev_id ev = 7%nat) /\
  (status (fst (getEvent (env_up 9) (WellFormedId 7) (created two_sections)))
   = 200 \/
   status (fst (getEvent (env_up 9) (WellFormedId 7) (created two_sections)))
   = 404) /\
  snd (getEvent (env_up 9) (WellFormedId 7) (created two_sections))
  = [CallFindById 7].
Proof.
  assert (H : find_up (env_up 9) = true) by reflexivity.
  split; [exact H|].
  exact (proj1 (X2_getEvent_answers (env_up 9) (created two_sections)) 7%nat H).
Defined.



(* ================================================================== *)
(** * The answers of POST /book                                         *)
(* ================================================================== *)

Lemma booking_error_response_status (err : Error) :
  status (booking_error_response err) = 400 \/
  status (booking_error_response err) = 500.
Proof.
  unfold booking_error_response. destruct (_ || _); simpl; auto.
Qed.

(** X4.  createBooking stores a booking exactly when it answers 201: with
    201 the collection grows by one booking, appended last, that carries
    the event id, section id and qty of the request and the time of the
    request; with any other answer the bookings are as before. *)
Theorem X4_booking_stored_iff_201 :
  forall (pos : Positional) (env : Env) (b : BookingBody) (w w' : World)
         (o : Outcome Response) (log : list DbCall),
    createBooking pos env b w = (o, w', log) ->
    exists r, o = Returned r /\
    (status r = 201 ->
     exists bk,
       body r = BookingJson booking_successful bk /\
       bookings w' = bookings w ++ [bk] /\
       req_eventId b = Some (eventId bk) /\
       req_sectionId b = Some (sectionId bk) /\
       req_qty b = Some (qty bk) /\
       createdAt bk = now env) /\
    (status r <> 201 -> bookings w' = bookings w).
Proof.
  intros pos env b w w' o log Hrun.
  assert (Hret : exists r, o = Returned r).
  { rewrite createBooking_unfold in Hrun.
    destruct (req_eventId b), (req_sectionId b), (req_qty b) as [q|];
      try (inversion Hrun; eauto; fail).
    destruct (q =? 0); [inversion Hrun; eauto|].
    destruct (q <? 1); [inversion Hrun; eauto|].
    destruct (bookTicket pos env _ _ q w) as [[[bk|err] w1] l];
      inversion Hrun; eauto. }
  destruct Hret as [r ->]. exists r. split; [reflexivity|]. split.
  - intros H201.
    destruct (createBooking_created pos env b w w' r log Hrun H201)
      as (e & s & q & ev' & evs' & He & Hs & Hq & _ & _ & _ & _ & -> & -> & _).
    eexists. simpl. repeat split; eauto.
  - intros Hne. rewrite createBooking_unfold in Hrun.
    destruct (req_eventId b) as [e|], (req_sectionId b) as [s|],
      (req_qty b) as [q|]; try (inversion Hrun; subst; reflexivity).
    destruct (q =? 0); [inversion Hrun; subst; reflexivity|].
    destruct (q <? 1); [inversion Hrun; subst; reflexivity|].
    rewrite bookTicket_unfold in Hrun.
    destruct (update_up env); [|inversion Hrun; subst; reflexivity].
    destruct (find_one_and_update pos e s q (events w)) as [[ev' evs']|];
      [|inversion Hrun; subst; reflexivity].
    cbv zeta in Hrun.
    destruct (q <? 1); [inversion Hrun; subst; reflexivity|].
    destruct (save_up env); inversion Hrun; subst; [|reflexivity].
    simpl in Hne. now elim Hne.
Qed.

(** Two seats of the five of section 2. *)
Lemma X4_booking_stored_iff_201_witness :
  let rq := mkBookingBody (Some 0%nat) (Some 2%nat) (Some 2) in
  let run := createBooking BySectionId (env_up 5) rq (created two_sections) in
  exists r, outcome_of run = Returned r /\
    (status r = 201 ->
     exists bk,
       body r = BookingJson booking_successful bk /\
       bookings (world_of run) = bookings (created two_sections) ++ [bk] /\
       req_eventId rq = Some (eventId bk) /\
       req_sectionId rq = Some (sectionId bk) /\
       req_qty rq = Some (qty bk) /\
       createdAt bk = now (env_up 5)) /\
    (status r <> 201 ->
     bookings (world_of run) = bookings (created two_sections)).
Proof.
  intros rq run.
  exact (X4_booking_stored_iff_201 BySectionId (env_up 5) rq
           (created two_sections) (world_of run) (outcome_of run) (calls_of run)
           eq_refl).
Defined.

(** X5.  For a request whose event id and section id, when there, are
    ids that Mongoose can cast: createBooking never throws, it answers
    201, 400 or 500 and no other status, and it answers 500 only when the
    database failed to answer the conditional update or the insert. *)
Theorem X5_createBooking_statuses :
  forall (pos : Positional) (env : Env) (b : BookingBody) (w : World),
    exists r,
      outcome_of (createBooking pos env b w) = Returned r /\
      (status r = 201 \/ status r = 400 \/ status r = 500) /\
      (status r = 500 -> update_up env = false \/ save_up env = false).
Proof.
  intros pos env b w. rewrite createBooking_unfold.
  assert (H400 : forall msg,
    exists r, outcome_of (Returned (mkResponse 400 (ErrorJson msg)), w,
                          @nil DbCall) = Returned r /\
      (status r = 201 \/ status r = 400 \/ status r = 500) /\
      (status r = 500 -> update_up env = false \/ save_up env = false)).
  { intros msg. eexists. split; [reflexivity|]. simpl. split; auto. discriminate. }
  destruct (req_eventId b) as [e|], (req_sectionId b) as [s|],
    (req_qty b) as [q|]; try apply H400.
  destruct (q =? 0); [apply H400|].
  destruct (q <? 1) eqn:Hq; [apply H400|].
  rewrite bookTicket_unfold.
  destruct (update_up env).
  2:{ eexists. split; [reflexivity|]. simpl. auto. }
  destruct (find_one_and_update pos e s q (events w)) as [[ev' evs']|].
  2:{ eexists. split; [reflexivity|]. simpl. split; auto. discriminate. }
  cbv zeta. rewrite Hq.
  destruct (save_up env); eexists; (split; [reflexivity|]); simpl; auto.
  split; auto. discriminate.
Qed.

(** X6.  createBooking answers 400 "Missing required fields: eventId,
    sectionId, qty" exactly when the request lacks the event id, the
    section id or the qty, or has qty 0 (which JavaScript's [!qty] takes
    for a missing field); it then leaves the database alone. *)
Theorem X6_missing_fields :
  forall (pos : Positional) (env : Env) (b : BookingBody) (w : World),
    (req_eventId b = None \/ req_sectionId b = None \/
     req_qty b = None \/ req_qty b = Some 0)
    <->
    createBooking pos env b w
    = (Returned (mkResponse 400 (ErrorJson missing_fields)), w, []).
Proof.
  intros pos env b w. rewrite createBooking_unfold. split.
  - intros [H|[H|[H|H]]]; rewrite H.
    + reflexivity.
    + now destruct (req_eventId b).
    + now destruct (req_eventId b), (req_sectionId b).
    + now destruct (req_eventId b), (req_sectionId b).
  - destruct (req_eventId b) as [e|]; [|auto].
    destruct (req_sectionId b) as [s|]; [|auto].
    destruct (req_qty b) as [q|]; [|auto].
    destruct (q =? 0) eqn:H0; [apply Z.eqb_eq in H0; subst; auto|].
    destruct (q <? 1); [discriminate|].
    destruct (bookTicket pos env e s q w) as [[[bk|err] w1] l];
      [discriminate|].
    unfold booking_error_response.
    destruct (String.eqb (message err) not_enough_seats) eqn:H1.
    + apply String.eqb_eq in H1. simpl. rewrite H1. discriminate.
    + destruct (String.eqb (message err) section_not_found) eqn:H2.
      * apply String.eqb_eq in H2. simpl. rewrite H2. discriminate.
      * simpl. discriminate.
Qed.

(* ================================================================== *)
(** * What the requests never change                                    *)
(* ================================================================== *)

Lemma same_section_refl (sec : Section) : same_section_but_remaining sec sec.
Proof. unfold same_section_but_remaining. repeat split; auto. Qed.

Lemma same_event_refl (ev : Event) : same_event_but_remaining ev ev.
Proof.
  unfold same_event_but_remaining. repeat split; auto.
  induction (sections ev); constructor; auto using same_section_refl.
Qed.

Lemma same_events_refl (evs : list Event) :
  Forall2 same_event_but_remaining evs evs.
Proof. induction evs; constructor; auto using same_event_refl. Qed.

Lemma Forall2_chain {A} (R : A -> A -> Prop) :
  (forall x y z, R x y -> R y z -> R x z) ->
  forall l1 l2 l3, Forall2 R l1 l2 -> Forall2 R l2 l3 -> Forall2 R l1 l3.
Proof.
  intros Htrans l1 l2 l3 H12. revert l3.
  induction H12 as [|x y l1 l2 Hxy _ IH]; intros l3 H23;
    inversion H23; subst; constructor; eauto.
Qed.

Lemma same_section_trans (a b c : Section) :
  same_section_but_remaining a b -> same_section_but_remaining b c ->
  same_section_but_remaining a c.
Proof.
  unfold same_section_but_remaining.
  intros (H1 & H2 & H3 & H4) (K1 & K2 & K3 & K4).
  repeat split; congruence.
Qed.

Lemma same_event_trans (a b c : Event) :
  same_event_but_remaining a b -> same_event_but_remaining b c ->
  same_event_but_remaining a c.
Proof.
  unfold same_event_but_remaining. intros (H1 & H2 & H3) (K1 & K2 & K3).
  repeat split; try congruence.
  exact (Forall2_chain _ same_section_trans _ _ _ H3 K3).
Qed.

Lemma inc_positional_same (p : Section -> bool) (d : Z) (secs : list Section) :
  Forall2 same_section_but_remaining secs (inc_positional p d secs).
Proof.
  induction secs as [|sec rest IH]; simpl; [constructor|].
  destruct (p sec).
  - constructor.
    + unfold same_section_but_remaining. simpl. repeat split; auto.
    + clear IH. induction rest; constructor; auto using same_section_refl.
  - constructor; auto using same_section_refl.
Qed.

Lemma same_section_ids (secs secs' : list Section) :
  Forall2 same_section_but_remaining secs secs' ->
  map sec_id secs' = map sec_id secs.
Proof.
  induction 1 as [|a b l l' Hab _ IH]; simpl; [reflexivity|].
  destruct Hab as [-> _]. now rewrite IH.
Qed.

(** One call of the primitive with at least one seat: the events stay in
    place and keep their ids and names and the ids, names, prices and
    capacities of their sections; the bookings stay, or get one sound
    booking more. *)
Lemma bookTicket_step (pos : Positional) (env : Env) (e s : ObjectId)
    (q : Z) (w : World) :
  1 <= q ->
  Forall2 same_event_but_remaining (events w)
    (events (world_of (bookTicket pos env e s q w))) /\
  (bookings (world_of (bookTicket pos env e s q w)) = bookings w \/
   exists bk,
     bookings (world_of (bookTicket pos env e s q w)) = bookings w ++ [bk] /\
     booking_sound (events (world_of (bookTicket pos env e s q w))) bk).
Proof.
  intros Hq. rewrite bookTicket_unfold.
  destruct (update_up env); [|split; [apply same_events_refl|now left]].
  destruct (find_one_and_update pos e s q (events w)) as [[ev' evs']|] eqn:Hu;
    [|split; [apply same_events_refl|now left]].
  apply find_one_and_update_some in Hu.
  destruct Hu as (l1 & ev0 & l2 & Hevs & -> & -> & Hm & _).
  assert (Hrel : Forall2 same_event_but_remaining (events w)
                   (l1 ++ apply_update pos s q ev0 :: l2)).
  { rewrite Hevs. apply Forall2_app; [apply same_events_refl|].
    constructor; [|apply same_events_refl].
    unfold same_event_but_remaining, apply_update. simpl.
    repeat split; auto. apply inc_positional_same. }
  cbv zeta. assert ((q <? 1) = false) as -> by (apply Z.ltb_ge; lia).
  destruct (save_up env); unfold world_of; simpl; (split; [exact Hrel|]);
    [|now left].
  right. eexists. split; [reflexivity|].
  unfold booking_sound. simpl. split; [exact Hq|].
  exists (apply_update pos s q ev0).
  split; [apply in_or_app; right; now left|].
  apply filter_matches_inv in Hm. destruct Hm as (He & Hs & _).
  split; [exact He|]. now rewrite apply_update_section_ids.
Qed.

Lemma handle_step (pos : Positional) (r : Request) (w : World) :
  (exists old added,
      events (world_of (handle pos r w)) = old ++ added /\
      Forall2 same_event_but_remaining (events w) old) /\
  (bookings (world_of (handle pos r w)) = bookings w \/
   exists bk,
     bookings (world_of (handle pos r w)) = bookings w ++ [bk] /\
     booking_sound (events (world_of (handle pos r w))) bk).
Proof.
  assert (Hsame : forall w', events w' = events w -> bookings w' = bookings w ->
            (exists old added,
                events w' = old ++ added /\
                Forall2 same_event_but_remaining (events w) old) /\
            (bookings w' = bookings w \/
             exists bk, bookings w' = bookings w ++ [bk] /\
                        booking_sound (events w') bk)).
  { intros w' He Hb. split; [|now left].
    exists (events w), []. rewrite app_nil_r. split; [exact He|].
    apply same_events_refl. }
  destruct r as [env b|env b|env]; simpl.
  - (* createEvent *)
    rewrite createEvent_unfold.
    destruct (req_name b) as [name|], (req_sections b) as [ins|];
      try (apply Hsame; reflexivity).
    destruct (_ || _); [apply Hsame; reflexivity|]. cbv zeta.
    destruct (validate_sections _) as [secs|]; [|apply Hsame; reflexivity].
    destruct (save_up env); [|apply Hsame; reflexivity].
    unfold world_of. simpl. split; [|now left].
    eexists _, _. split; [reflexivity|]. apply same_events_refl.
  - (* createBooking *)
    rewrite createBooking_unfold.
    destruct (req_eventId b) as [e|], (req_sectionId b) as [s|],
      (req_qty b) as [q|]; try (apply Hsame; reflexivity).
    destruct (q =? 0); [apply Hsame; reflexivity|].
    destruct (q <? 1) eqn:Hq; [apply Hsame; reflexivity|].
    apply Z.ltb_ge in Hq.
    destruct (bookTicket_step pos env e s q w Hq) as [Hev Hbk].
    assert (Hw : world_of
                   (match bookTicket pos env e s q w with
                    | (Returned bk, w', log) =>
                        (Returned (mkResponse 201
                                     (BookingJson booking_successful bk)),
                         w', log)
                    | (Thrown err, w', log) =>
                        (Returned (booking_error_response err), w', log)
                    end)
                 = world_of (bookTicket pos env e s q w))
      by (destruct (bookTicket pos env e s q w) as [[[bk|err] w'] log];
          reflexivity).
    rewrite Hw. split; [|exact Hbk].
    eexists _, []. rewrite app_nil_r. split; [reflexivity|exact Hev].
  - (* listBookings *)
    unfold listBookings, try_catch, bind, getAllBookings.
    destruct (find_up env); apply Hsame; reflexivity.
Qed.

(** X7.  Whatever requests are served, the events collection only grows
    at its end, and an event that is stored stays where it is with its id,
    its name and as many sections in the same order, each with its id,
    name, price and capacity: sections are never added, removed, renamed,
    repriced or resized. *)
Theorem X7_events_are_only_appended :
  forall (pos : Positional) (rs : list Request) (w : World),
    exists old added,
      events (serve pos rs w) = old ++ added /\
      Forall2 same_event_but_remaining (events w) old.
Proof.
  intros pos rs. induction rs as [|r rest IH]; intros w; simpl.
  - exists (events w), []. rewrite app_nil_r. split; auto using same_events_refl.
  - destruct (handle_step pos r w) as [(old1 & added1 & He1 & Hrel1) _].
    destruct (IH (world_of (handle pos r w))) as (old2 & added2 & He2 & Hrel2).
    rewrite He1 in Hrel2.
    apply Forall2_app_inv_l in Hrel2.
    destruct Hrel2 as (o2a & o2b & Ha & Hb & ->).
    exists o2a, (o2b ++ added2). rewrite He2, app_assoc. split; [reflexivity|].
    exact (Forall2_chain _ same_event_trans _ _ _ Hrel1 Ha).
Qed.

Lemma booking_sound_later (evs old added : list Event) (b : Booking) :
  Forall2 same_event_but_remaining evs old ->
  booking_sound evs b -> booking_sound (old ++ added) b.
Proof.
  intros Hrel (Hq & ev & Hin & Hid & Hs). split; [exact Hq|].
  revert Hin. induction Hrel as [|x y l l' Hxy _ IH]; intros Hin; [contradiction|].
  destruct Hin as [->|Hin].
  - exists y. destruct Hxy as (Hi & _ & Hsecs).
    split; [now left|]. split; [congruence|].
    now rewrite (same_section_ids _ _ Hsecs).
  - destruct (IH Hin) as (ev' & Hin' & H'). exists ev'. split; [now right|exact H'].
Qed.

Lemma bookings_sound_serve (pos : Positional) (rs : list Request) :
  forall w,
    Forall (booking_sound (events w)) (bookings w) ->
    Forall (booking_sound (events (serve pos rs w))) (bookings (serve pos rs w)).
Proof.
  induction rs as [|r rest IH]; intros w Hw; simpl; [exact Hw|].
  apply IH.
  destruct (handle_step pos r w) as [(old & added & He & Hrel) Hbk].
  assert (Hold : Forall (booking_sound (events (world_of (handle pos r w))))
                   (bookings w)).
  { rewrite He. eapply Forall_impl; [|exact Hw].
    intros b. now apply booking_sound_later. }
  destruct Hbk as [->|(bk & -> & Hsound)]; [exact Hold|].
  apply Forall_app. split; [exact Hold|]. now constructor.
Qed.

(** X8.  In every state the requests can reach, every stored booking is
    for at least one seat and names an event that is stored and a section
    of that event. *)
Theorem X8_stored_bookings_are_sound :
  forall (pos : Positional) (w : World),
    reachable pos w ->
    Forall (booking_sound (events w)) (bookings w).
Proof.
  intros pos w [rs ->]. apply bookings_sound_serve. constructor.
Qed.

(** One event of two sections and a booking in each. *)
Lemma X8_stored_bookings_are_sound_witness :
  let rs := [PostEventsCreate (env_up 0) two_sections;
             PostBook (env_up 1) (mkBookingBody (Some 0%nat) (Some 2%nat) (Some 2));
             PostBook (env_up 2) (mkBookingBody (Some 0%nat) (Some 1%nat) (Some 1))] in
  reachable BySectionId (serve BySectionId rs empty_world) /\
  List.length (bookings (serve BySectionId rs empty_world)) = 2%nat /\
  Forall (booking_sound (events (serve BySectionId rs empty_world)))
         (bookings (serve BySectionId rs empty_world)).
Proof.
  intros rs.
  assert (H : reachable BySectionId (serve BySectionId rs empty_world))
    by (now exists rs).
  split; [exact H|]. split; [reflexivity|].
  exact (X8_stored_bookings_are_sound BySectionId _ H).
Defined.

(* ================================================================== *)
(** * The listing, once more                                            *)
(* ================================================================== *)

(** X9.  In every state the requests can reach, the listing never shows a
    booking without its event: the populated [eventId] of every listed
    booking is the id and the name of a stored event, the one the booking
    names. *)
Theorem X9_listed_bookings_have_their_event :
  forall (pos : Positional) (env : Env) (w : World)
         (l : list PopulatedBooking),
    reachable pos w ->
    outcome_of (getAllBookings env w) = Returned l ->
    Forall (fun p =>
              exists ev, In ev (events w) /\
                         ev_id ev = eventId (pb_doc p) /\
                         pb_event p = Some (ev_id ev, ev_name ev)) l.
Proof.
  intros pos env w l Hreach Hl.
  destruct Hreach as [rs ->].
  pose proof (bookings_sound_serve pos rs empty_world (Forall_nil _)) as Hsound.
  unfold getAllBookings in Hl. destruct (find_up env); [|discriminate].
  unfold outcome_of in Hl. simpl in Hl. inversion Hl; subst l. clear Hl.
  apply Forall_forall. intros p Hp. apply in_map_iff in Hp.
  destruct Hp as (b & <- & Hb).
  apply (Permutation_in _ (sort_newest_first_perm _)) in Hb.
  rewrite Forall_forall in Hsound.
  destruct (Hsound b Hb) as (_ & ev & Hin & Hid & _).
  unfold populate_eventId. simpl.
  destruct (find _ (events (serve pos rs empty_world))) as [ev'|] eqn:Hf.
  - apply find_some in Hf. destruct Hf as [Hin' Hid'].
    apply Nat.eqb_eq in Hid'. exists ev'. auto.
  - exfalso. apply (find_none _ _ Hf) in Hin.
    apply Nat.eqb_neq in Hin. contradiction.
Qed.

(** The listing after one booking of event 0. *)
Lemma X9_listed_bookings_have_their_event_witness :
  let rs := [PostEventsCreate (env_up 0) (one_section 3 None);
             PostBook (env_up 1) (mkBookingBody (Some 0%nat) (Some 1%nat) (Some 2))] in
  let w := serve ByRemaining rs empty_world in
  let l := [mkPopulated (mkBooking 2 0 1 2 1) (Some (0%nat, "Concert"%string))] in
  (reachable ByRemaining w /\
   outcome_of (getAllBookings (env_up 5) w) = Returned l) /\
  Forall (fun p =>
            exists ev, In ev (events w) /\
                       ev_id ev = eventId (pb_doc p) /\
                       pb_event p = Some (ev_id ev, ev_name ev)) l.
Proof.
  intros rs w l.
  assert (H1 : reachable ByRemaining w) by (now exists rs).
  assert (H2 : outcome_of (getAllBookings (env_up 5) w) = Returned l)
    by reflexivity.
  split; [auto|].
  exact (X9_listed_bookings_have_their_event ByRemaining (env_up 5) w l H1 H2).
Defined.

(** Every ordering newest first of a collection whose last booking is
    newer than all the others starts with that booking, whatever it does
    with equal times. *)
Lemma newest_is_first (old : list Booking) (bk : Booking) (l' : list Booking) :
  Forall (fun x => createdAt x < createdAt bk) old ->
  Permutation l' (old ++ [bk]) ->
  StronglySorted newer_or_equal l' ->
  exists older,
    l' = bk :: older /\ Permutation older old /\
    StronglySorted newer_or_equal older.
Proof.
  intros Hold Hperm Hsorted.
  destruct l' as [|x older].
  { apply Permutation_nil in Hperm. now destruct old. }
  inversion Hsorted as [|? ? Hrest Hhead]; subst.
  assert (x = bk) as ->.
  { assert (Hx : In x (old ++ [bk]))
      by (apply (Permutation_in _ Hperm); now left).
    apply in_app_or in Hx. destruct Hx as [Hx|[Hx|[]]]; [|now symmetry].
    exfalso. rewrite Forall_forall in Hold. specialize (Hold x Hx).
    assert (Hbk : In bk (x :: older)).
    { apply (Permutation_in _ (Permutation_sym Hperm)).
      apply in_or_app. right. now left. }
    destruct Hbk as [->|Hbk]; [lia|].
    rewrite Forall_forall in Hhead. specialize (Hhead bk Hbk).
    unfold newer_or_equal in Hhead. lia. }
  exists older. split; [reflexivity|]. split; [|exact Hrest].
  apply Permutation_cons_app_inv in Hperm. now rewrite app_nil_r in Hperm.
Qed.

(** X10.  A booking made at a time later than every stored booking is the
    first of every listing newest first of the bookings, whatever the
    order among bookings of equal time, and the rest is a listing newest
    first of the bookings stored before; the listing of getAllBookings is
    of this form. *)
Theorem X10_latest_booking_is_listed_first :
  forall (pos : Positional) (env lenv : Env) (b : BookingBody) (w w' : World)
         (r : Response) (log : list DbCall),
    createBooking pos env b w = (Returned r, w', log) ->
    status r = 201 ->
    Forall (fun x => createdAt x < now env) (bookings w) ->
    find_up lenv = true ->
    exists bk,
      body r = BookingJson booking_successful bk /\
      (forall l' : list Booking,
          Permutation l' (bookings w') ->
          StronglySorted newer_or_equal l' ->
          exists older,
            l' = bk :: older /\ Permutation older (bookings w) /\
            StronglySorted newer_or_equal older) /\
      exists l older,
        outcome_of (getAllBookings lenv w') = Returned l /\
        map pb_doc l = bk :: older /\
        Permutation older (bookings w) /\
        StronglySorted newer_or_equal older.
Proof.
  intros pos env lenv b w w' r log Hrun H201 Hnew Hup.
  destruct (createBooking_created pos env b w w' r log Hrun H201)
    as (e & s & q & ev' & evs' & _ & _ & _ & _ & _ & _ & _ & -> & -> & _).
  set (bk := mkBooking (next_oid w) e s q (now env)) in *.
  assert (Hgen : forall l' : list Booking,
             Permutation l' (bookings w ++ [bk]) ->
             StronglySorted newer_or_equal l' ->
             exists older,
               l' = bk :: older /\ Permutation older (bookings w) /\
               StronglySorted newer_or_equal older).
  { intros l'. now apply newest_is_first. }
  exists bk. split; [reflexivity|]. cbn [bookings events]. split; [exact Hgen|].
  destruct (Hgen (sort_newest_first (bookings w ++ [bk]))
              (sort_newest_first_perm _) (sort_newest_first_sorted _))
    as (older & Heq & Hperm & Hsorted).
  eexists. exists older.
  unfold getAllBookings, outcome_of. rewrite Hup. cbn [fst bookings events].
  split; [reflexivity|]. rewrite populate_docs. auto.
Qed.

(** A second booking, made at 7 after one made at 3. *)
Lemma X10_latest_booking_is_listed_first_witness :
  let w := serve ByRemaining
             [PostEventsCreate (env_up 0) (one_section 3 None);
              PostBook (env_up 3) (mkBookingBody (Some 0%nat) (Some 1%nat) (Some 1))]
             empty_world in
  let rq := mkBookingBody (Some 0%nat) (Some 1%nat) (Some 2) in
  let run := createBooking ByRemaining (env_up 7) rq w in
  let r := mkResponse 201 (BookingJson booking_successful (mkBooking 3 0 1 2 7)) in
  (status r = 201 /\
   Forall (fun x => createdAt x < now (env_up 7)) (bookings w) /\
   find_up (env_up 9) = true) /\
  exists bk,
    body r = BookingJson booking_successful bk /\
    (forall l' : list Booking,
        Permutation l' (bookings (world_of run)) ->
        StronglySorted newer_or_equal l' ->
        exists older,
          l' = bk :: older /\ Permutation older (bookings w) /\
          StronglySorted newer_or_equal older) /\
    exists l older,
      outcome_of (getAllBookings (env_up 9) (world_of run)) = Returned l /\
      map pb_doc l = bk :: older /\
      Permutation older (bookings w) /\
      StronglySorted newer_or_equal older.
Proof.
  intros w rq run r.
  assert (H1 : status r = 201) by reflexivity.
  assert (H2 : Forall (fun x => createdAt x < now (env_up 7)) (bookings w))
    by (repeat constructor).
  assert (H3 : find_up (env_up 9) = true) by reflexivity.
  split; [auto|].
  exact (X10_latest_booking_is_listed_first ByRemaining (env_up 7) (env_up 9)
           rq w (world_of run) r (calls_of run) eq_refl H1 H2 H3).
Defined.

(* ================================================================== *)
(** * What createEvent refuses, and what the service leaves unchecked   *)
(* ================================================================== *)

(** X11.  createEvent answers 400 "Name and at least one section are
    required" exactly when the name is missing or empty, or the list of
    sections is missing or empty, and then nothing at all has happened.
    It never touches the bookings, and the events collection changes only
    by the one event appended with the answer 201. *)
Theorem X11_createEvent_refusals :
  forall (env : Env) (b : EventBody) (w w' : World)
         (o : Outcome Response) (log : list DbCall),
    createEvent env b w = (o, w', log) ->
    bookings w' = bookings w /\
    ((not_string (req_name b) = true \/ req_sections b = None \/
      req_sections b = Some [])
     <-> o = Returned (mkResponse 400 (ErrorJson name_and_section_required))) /\
    (o = Returned (mkResponse 400 (ErrorJson name_and_section_required)) ->
     w' = w /\ log = []) /\
    (events w' <> events w ->
     exists ev, o = Returned (mkResponse 201 (EventJson ev)) /\
                events w' = events w ++ [ev]).
Proof.
  intros env b w w' o log. rewrite createEvent_unfold.
  destruct (req_name b) as [name|].
  2:{ intros [= <- <- <-]. repeat split; auto. intros H. now elim H. }
  destruct (req_sections b) as [ins|].
  2:{ intros [= <- <- <-]. repeat split; auto. intros H. now elim H. }
  simpl not_string.
  destruct (String.eqb name "") eqn:Hn.
  { simpl. intros [= <- <- <-]. repeat split; auto. intros H. now elim H. }
  destruct ins as [|i rest].
  { simpl. intros [= <- <- <-]. repeat split; auto. intros H. now elim H. }
  simpl orb. cbv match. cbv zeta.
  destruct (validate_sections _) as [secs|]; [destruct (save_up env)|];
    intros [= <- <- <-]; simpl.
  - repeat split; try discriminate.
    + intros [H|[H|H]]; discriminate.
    + intros _. eauto.
  - repeat split; try discriminate.
    + intros [H|[H|H]]; discriminate.
    + intros H. now elim H.
  - repeat split; try discriminate.
    + intros [H|[H|H]]; discriminate.
    + intros H. now elim H.
Qed.

(** A request without a name. *)
Lemma X11_createEvent_refusals_witness :
  let rq := mkEventBody None (Some [section_input "VIP" 100 3 None]) in
  let w := created two_sections in
  let answer := Returned (mkResponse 400 (ErrorJson name_and_section_required)) in
  bookings w = bookings w /\
  ((not_string (req_name rq) = true \/ req_sections rq = None \/
    req_sections rq = Some [])
   <-> answer = Returned (mkResponse 400 (ErrorJson name_and_section_required))) /\
  (answer = Returned (mkResponse 400 (ErrorJson name_and_section_required)) ->
   w = w /\ @nil DbCall = []) /\
  (events w <> events w ->
   exists ev, answer = Returned (mkResponse 201 (EventJson ev)) /\
              events w = events w ++ [ev]).
Proof.
  intros rq w answer.
  exact (X11_createEvent_refusals (env_up 4) rq w w answer [] eq_refl).
Defined.

(** X12.  bookTicket itself does not check qty.  Called with qty below 1
    for the only section of an event, it still applies the conditional
    update and only then fails in the schema of the booking: a validation
    error, no insert sent, no booking stored.  The event keeps its id and
    name and the section its id, name, price and capacity; as long as the
    new counter is at most 2^53 - 1 in size, it is the old one less [qty]:
    as it was (qty 0) or higher (qty negative).  The check of
    createBooking is all that stands in front of it. *)
Theorem X12_bookTicket_does_not_check_qty :
  forall (pos : Positional) (env : Env) (w : World) (ev : Event)
         (sec : Section) (q : Z),
    reachable pos w ->
    In ev (events w) ->
    sections ev = [sec] ->
    q < 1 ->
    q <= remaining sec ->
    Z.abs (remaining sec - q) <= max_safe_integer ->
    update_up env = true ->
    exists w' ev' sec',
      bookTicket pos env (ev_id ev) (sec_id sec) q w
      = (Thrown (ValidationError "Booking"), w',
         [CallFindOneAndUpdate (ev_id ev) (sec_id sec) q]) /\
      bookings w' = bookings w /\
      lookup_event (ev_id ev) (events w') = Some ev' /\
      ev_id ev' = ev_id ev /\ ev_name ev' = ev_name ev /\
      sections ev' = [sec'] /\
      same_section_but_remaining sec sec' /\
      remaining sec' = remaining sec - q /\
      remaining sec <= remaining sec'.
Proof.
  intros pos env w ev sec q Hreach Hin Hsec Hq Hle Hsafe Hup.
  pose proof (event_ids_nodup _ (reachable_ids_fresh pos w Hreach)) as Hnd.
  assert (Hm : filter_matches (ev_id ev) (sec_id sec) q ev = true).
  { unfold filter_matches, has_section, has_remaining. rewrite Hsec. simpl.
    rewrite !Nat.eqb_refl. simpl.
    assert ((q <=? remaining sec) = true) as -> by (apply Z.leb_le; lia).
    reflexivity. }
  destruct (find_one_and_update_hits pos _ _ q _ ev Hnd Hin Hm)
    as (l1 & l2 & Hevs & Hu).
  destruct (filter_matches_single pos _ _ _ ev sec Hsec Hm) as (_ & _ & _ & Hap).
  rewrite bookTicket_unfold, Hup, Hu. cbv zeta.
  assert ((q <? 1) = true) as -> by (apply Z.ltb_lt; lia).
  eexists. exists (mkEvent (ev_id ev) (ev_name ev) [inc_remaining (- q) sec]),
    (inc_remaining (- q) sec).
  split; [reflexivity|]. cbn [bookings events]. split; [reflexivity|].
  assert (Hnd' : NoDup (map ev_id (l1 ++ apply_update pos (sec_id sec) q ev :: l2))).
  { rewrite Hevs in Hnd. rewrite map_app in *. exact Hnd. }
  assert (Hin' : In (apply_update pos (sec_id sec) q ev)
                    (l1 ++ apply_update pos (sec_id sec) q ev :: l2))
    by (apply in_or_app; right; now left).
  pose proof (in_lookup_event _ _ Hnd' Hin') as Hl. simpl in Hl.
  rewrite Hl, Hap.
  do 4 (split; [reflexivity|]). split; [repeat split|].
  simpl. rewrite to_double_exact_safe by exact Hsafe. lia.
Qed.

(** Four seats handed back to a section of capacity 3: the counter shows 7. *)
Lemma X12_bookTicket_does_not_check_qty_witness :
  let w := created (one_section 3 None) in
  let sec := mkSection 1 "VIP" 100 3 3 in
  let ev := mkEvent 0 "Concert" [sec] in
  (reachable ByRemaining w /\ In ev (events w) /\ sections ev = [sec] /\
   -4 < 1 /\ -4 <= remaining sec /\
   Z.abs (remaining sec - -4) <= max_safe_integer /\
   update_up (env_up 5) = true) /\
  exists w' ev' sec',
    bookTicket ByRemaining (env_up 5) 0 1 (-4) w
    = (Thrown (ValidationError "Booking"), w', [CallFindOneAndUpdate 0 1 (-4)]) /\
    bookings w' = bookings w /\
    lookup_event 0 (events w') = Some ev' /\
    ev_id ev' = 0%nat /\ ev_name ev' = "Concert"%string /\
    sections ev' = [sec'] /\
    same_section_but_remaining sec sec' /\
    remaining sec' = 3 - -4 /\
    3 <= remaining sec'.
Proof.
  intros w sec ev.
  assert (H1 : reachable ByRemaining w)
    by (exists [PostEventsCreate (env_up 0) (one_section 3 None)]; reflexivity).
  assert (H2 : In ev (events w)) by (left; reflexivity).
  assert (H3 : sections ev = [sec]) by reflexivity.
  assert (H4 : -4 < 1) by lia.
  assert (H5 : -4 <= remaining sec) by (simpl; lia).
  assert (H5' : Z.abs (remaining sec - -4) <= max_safe_integer)
    by (vm_compute; discriminate).
  assert (H6 : update_up (env_up 5) = true) by reflexivity.
  split; [auto 10|].
  exact (X12_bookTicket_does_not_check_qty ByRemaining (env_up 5) w ev sec (-4)
           H1 H2 H3 H4 H5 H5' H6).
Defined.

(* ================================================================== *)
(** * Conservation                                                      *)
(* ================================================================== *)















(** The [_id] that a request gives to a section is kept, so two events
    can hold sections with the same id.  A booking of the one is then no
    booking of the other: the bookings are told apart by the event they
    name, not by the id of the section alone. *)
Example section_id_of_the_request_is_kept :
  forall pos : Positional,
    let w := serve pos
               [PostEventsCreate (env_up 0) (one_section_with_id 2 7);
                PostEventsCreate (env_up 1) (one_section_with_id 2 7);
                PostBook (env_up 2)
                  (mkBookingBody (Some 0%nat) (Some 7%nat) (Some 1))]
               empty_world in
    events w = [mkEvent 0 "Concert" [mkSection 7 "VIP" 100 2 1];
                mkEvent 2 "Concert" [mkSection 7 "VIP" 100 2 2]] /\
    booked_in 0 7 (bookings w) = 1 /\
    booked_in 2 7 (bookings w) = 0 /\
    booked 7 (bookings w) = 1.
Proof.
  intros pos. destruct pos; vm_compute; repeat split; reflexivity.
Qed.

(* ================================================================== *)
(** * Conservation for whole events                                     *)
(* ================================================================== *)















(* ================================================================== *)
(** * What a created event holds of its request                         *)
(* ================================================================== *)

Lemma validated_sections_fields (ins : list SectionInput) :
  forall (ds : list (ObjectId * SectionInput)) (secs : list Section),
    map snd ds = map with_remaining ins ->
    validate_sections ds = Some secs ->
    Forall2 (fun i sec => in_name i = Some (sec_name sec) /\
                          in_price i = Some (price sec))
            ins secs.
Proof.
  induction ins as [|i rest IH]; intros ds secs Hds Hv.
  - destruct ds; [|discriminate]. simpl in Hv; inversion Hv; constructor.
  - destruct ds as [|d ds]; [discriminate|].
    simpl in Hds. inversion Hds as [[Hd0 Hrest0]].
    simpl in Hv.
    destruct (validate_section d) as [sec|] eqn:Hd; [|discriminate].
    destruct (validate_sections ds) as [secs'|] eqn:Hrest; [|discriminate].
    inversion Hv; subst. constructor.
    + unfold validate_section in Hd. rewrite Hd0 in Hd. simpl in Hd.
      destruct (in_name i) as [n|]; [|discriminate].
      destruct (in_price i) as [p|]; [|discriminate].
      destruct (in_capacity i) as [c|]; [|now destruct (in_remaining i)].
      destruct (match in_remaining i with Some r => Some r | None => Some c end);
        [|discriminate].
      destruct (_ || _); [discriminate|].
      inversion Hd; subst. simpl. auto.
    + apply (IH ds); auto.
Qed.

(** X14.  An event that createEvent has stored holds what the request
    said: the name of the request, and one section for each element of
    [sections], in the order of the request, with that element's name,
    price and capacity. *)
Theorem X14_created_event_holds_the_request :
  forall (env : Env) (b : EventBody) (w w' : World) (ev : Event)
         (log : list DbCall),
    createEvent env b w = (Returned (mkResponse 201 (EventJson ev)), w', log) ->
    req_name b = Some (ev_name ev) /\
    exists ins,
      req_sections b = Some ins /\
      Forall2 (fun i sec => in_name i = Some (sec_name sec) /\
                            in_price i = Some (price sec) /\
                            in_capacity i = Some (capacity sec))
              ins (sections ev).
Proof.
  intros env b w w' ev log Hrun.
  pose proof (createEvent_created env b w w' ev log Hrun)
    as (ins & Hins & Hstored & _).
  rewrite createEvent_unfold, Hins in Hrun.
  destruct (req_name b) as [name|]; [|discriminate].
  destruct (_ || _); [discriminate|]. cbv zeta in Hrun.
  destruct (validate_sections _) as [secs|] eqn:Hv; [|discriminate].
  destruct (save_up env); [|discriminate].
  inversion Hrun; subst. simpl. split; [reflexivity|].
  exists ins. split; [exact Hins|].
  pose proof (validated_sections_fields ins _ secs (drafts_snd _ _) Hv) as Hf.
  simpl in Hstored. clear - Hf Hstored.
  induction Hf as [|i sec ins secs [Hn Hp] _ IH]; [constructor|].
  inversion Hstored as [|? ? ? ? (Hc & _) Hrest]; subst.
  constructor; auto.
Qed.

(** The event of two sections, created on the empty database. *)
Lemma X14_created_event_holds_the_request_witness :
  let ev := mkEvent 0 "Concert" [mkSection 1 "VIP" 100 1 1;
                                 mkSection 2 "General" 50 5 5] in
  createEvent (env_up 0) two_sections empty_world
  = (Returned (mkResponse 201 (EventJson ev)), created two_sections,
     [CallSaveEvent ev]) /\
  req_name two_sections = Some (ev_name ev) /\
  exists ins,
    req_sections two_sections = Some ins /\
    Forall2 (fun i sec => in_name i = Some (sec_name sec) /\
                          in_price i = Some (price sec) /\
                          in_capacity i = Some (capacity sec))
            ins (sections ev).
Proof.
  intros ev.
  assert (H : createEvent (env_up 0) two_sections empty_world
              = (Returned (mkResponse 201 (EventJson ev)), created two_sections,
                 [CallSaveEvent ev])) by reflexivity.
  split; [exact H|].
  exact (X14_created_event_holds_the_request (env_up 0) two_sections empty_world
           (created two_sections) ev [CallSaveEvent ev] H).
Defined.
